(** * sav: a writer for SPSS system files

    A shallow embedding of [sav.go] (package [sav] of librun/sav) and the
    properties of the writer that its specification states.

    Conventions of the embedding.
    - A Go [string] is a sequence of bytes: Rocq's [string] (a list of 8-bit
      [ascii]); [len] is [String.length].
    - Go's [int] and [int32] are [Z]; where a 32-bit result can leave its range
      the wrap-around is written with [wrap32].  Go's [/] and [%] truncate
      toward zero: [Z.quot] and [Z.rem].
    - A [float64] is its IEEE-754 binary64 bit pattern, a 64-bit [Z].
    - [[]byte] and everything that reaches the file is a [list byte].
    - Methods of [*SpssWriter] thread the writer explicitly and end in one of
      four ways ([outcome]): a value, a returned [error], [log.Fatal] (the
      process exits) or a loop that does not come back. *)

From Stdlib Require Import ZArith Lia List Bool.
From Stdlib.Strings Require Import String Ascii Byte.
From stdpp Require Import base option list gmap strings.

Local Open Scope string_scope.
Local Open Scope list_scope.
Local Open Scope Z_scope.

(** ** Integers and bytes *)

Definition wrap32 (z : Z) : Z := (z + 2 ^ 31) mod 2 ^ 32 - 2 ^ 31.
Definition wrap64 (z : Z) : Z := (z + 2 ^ 63) mod 2 ^ 64 - 2 ^ 63.

Definition MaxInt32 : Z := 2 ^ 31 - 1.

(** Conversion to [byte] keeps the low eight bits, as Go's [byte(x)] does. *)
Definition byte_of_Z (z : Z) : byte :=
  match Byte.of_N (Z.to_N (z mod 256)) with
  | Some b => b
  | None => x00
  end.

Definition Z_of_byte (b : byte) : Z := Z.of_N (Byte.to_N b).

(** [binary.Write(w, binary.LittleEndian, x)] first encodes [x]; these are the
    encodings of an [int32] and of a 64-bit pattern. *)
Definition le32 (z : Z) : list byte :=
  [byte_of_Z z; byte_of_Z (z / 2 ^ 8); byte_of_Z (z / 2 ^ 16); byte_of_Z (z / 2 ^ 24)].

Definition le64 (z : Z) : list byte :=
  le32 z ++ le32 (z / 2 ^ 32).

(** Reading a little-endian [int32] back, for statements about file contents. *)
Definition le_unsigned (bs : list byte) : Z :=
  fold_right (fun b acc => Z_of_byte b + 256 * acc) 0 bs.

Definition int32_of_le (bs : list byte) : Z := wrap32 (le_unsigned bs).

(** ** Strings *)

Definition len (s : string) : nat := String.length s.

(** [s[:n]] and [s[n:]] for [n <= len(s)]. *)
Fixpoint string_take (n : nat) (s : string) : string :=
  match n, s with
  | S n', String c s' => String c (string_take n' s')
  | _, _ => ""
  end.

Fixpoint string_drop (n : nat) (s : string) : string :=
  match n, s with
  | S n', String _ s' => string_drop n' s'
  | _, _ => s
  end.

(** [strings.Repeat(string([]byte{c}), n)] *)
Fixpoint Repeat (c : ascii) (n : nat) : string :=
  match n with
  | O => ""
  | S n' => String c (Repeat c n')
  end.

Definition bytes_of_string (s : string) : list byte := list_byte_of_string s.

Definition space : ascii := " "%char.

Definition stobp (s : string) (l : nat) (pad : ascii) : list byte :=
  bytes_of_string
    (if (l <? len s)%nat then string_take l s
     else if (len s <? l)%nat then s +:+ Repeat pad (l - len s)
     else s).

Definition stob (s : string) (l : nat) : list byte :=
  bytes_of_string
    (if (l <? len s)%nat then string_take l s
     else if (len s <? l)%nat then s +:+ Repeat space (l - len s)
     else s).

Definition trim (s : string) (l : nat) : string :=
  if (l <? len s)%nat then string_take l s else s.

(** [strings.ToUpper] on ASCII text: the letters a-z are moved to A-Z, every other
    byte is kept.  Every string the writer upper-cases is ASCII (cleaned names and
    base-36 numerals, see [cleanVarName_charset]). *)
Definition is_lower (c : ascii) : bool :=
  let n := N_of_ascii c in ((97 <=? n) && (n <=? 122))%N.

Definition is_upper (c : ascii) : bool :=
  let n := N_of_ascii c in ((65 <=? n) && (n <=? 90))%N.

Definition is_digit (c : ascii) : bool :=
  let n := N_of_ascii c in ((48 <=? n) && (n <=? 57))%N.

Definition upper_char (c : ascii) : ascii :=
  if is_lower c then ascii_of_N (N_of_ascii c - 32) else c.

Fixpoint ToUpper (s : string) : string :=
  match s with
  | "" => ""
  | String c s' => String (upper_char c) (ToUpper s')
  end.

(** [strconv.Itoa]: the decimal numeral of an integer, with a minus sign for a
    negative one.  The digit loop runs once per decimal digit; the number of
    binary digits bounds that. *)
Definition digit_char (d : Z) : ascii := ascii_of_N (48 + Z.to_N d).

Fixpoint Itoa_digits (fuel : nat) (n : Z) (acc : string) : string :=
  let acc' := String (digit_char (n mod 10)) acc in
  match fuel with
  | O => acc'
  | S fuel' => if n / 10 =? 0 then acc' else Itoa_digits fuel' (n / 10) acc'
  end.

Definition Itoa (n : Z) : string :=
  if n <? 0 then String "-"%char (Itoa_digits (Z.to_nat (Z.log2 (- n))) (- n) "")
  else Itoa_digits (Z.to_nat (Z.log2 n)) n "".

(** ** Base-36 column names *)

Definition getAlpabetByInt (s : Z) : string :=
  match s with
  | 10 => "a" | 11 => "b" | 12 => "c" | 13 => "d" | 14 => "e" | 15 => "f"
  | 16 => "g" | 17 => "h" | 18 => "i" | 19 => "j" | 20 => "k" | 21 => "l"
  | 22 => "m" | 23 => "n" | 24 => "o" | 25 => "p" | 26 => "q" | 27 => "r"
  | 28 => "s" | 29 => "t" | 30 => "u" | 31 => "v" | 32 => "w" | 33 => "x"
  | 34 => "y" | 35 => "z"
  | _ => Itoa s
  end.

(** The body of the [for] loop of [ConvertIntToColumnName].  Each round divides
    [s] by 36, so [Z.log2 s] rounds are more than the loop ever takes
    ([ConvertIntToColumnName_fuel] shows that more fuel changes nothing). *)
Fixpoint ConvertIntToColumnName_loop (fuel : nat) (s : Z) (result : string) : string :=
  let denom := Z.rem s 36 in
  let result := getAlpabetByInt denom +:+ result in
  match fuel with
  | O => result
  | S fuel' =>
      if 1 <=? Z.quot s 36
      then ConvertIntToColumnName_loop fuel' (Z.quot (s - denom) 36) result
      else result
  end.

Definition ConvertIntToColumnName (s : Z) : string :=
  ConvertIntToColumnName_loop (Z.to_nat (Z.log2 s)) s "".

(** The value of a base-36 numeral (digits 0-9, then a-z for 10..35), used to
    state what [ConvertIntToColumnName] computes. *)
Definition base36_digit (c : ascii) : option Z :=
  if is_digit c then Some (Z.of_N (N_of_ascii c) - 48)
  else if is_lower c then Some (Z.of_N (N_of_ascii c) - 87)
  else None.

Fixpoint base36_value_from (acc : Z) (s : string) : option Z :=
  match s with
  | "" => Some acc
  | String c s' =>
      match base36_digit c with
      | Some d => base36_value_from (36 * acc + d) s'
      | None => None
      end
  end.

Definition base36_value (s : string) : option Z :=
  match s with
  | "" => None
  | _ => base36_value_from 0 s
  end.

(** ** Floating point: binary64 bit patterns *)

(** [float64(i)] for an integer [i]: the nearest binary64, ties to even. *)
Definition float64_of_int (i : Z) : Z :=
  if i =? 0 then 0
  else
    let sign := if i <? 0 then 2 ^ 63 else 0 in
    let a := Z.abs i in
    let n := Z.log2 a in
    if n <=? 52 then sign + (n + 1023) * 2 ^ 52 + (a * 2 ^ (52 - n) - 2 ^ 52)
    else
      let shift := n - 52 in
      let q := a / 2 ^ shift in
      let r := a mod 2 ^ shift in
      let half := 2 ^ (shift - 1) in
      let q := if (half <? r) || ((r =? half) && Z.odd q) then q + 1 else q in
      if q =? 2 ^ 53 then sign + (n + 1 + 1023) * 2 ^ 52
      else sign + (n + 1023) * 2 ^ 52 + (q - 2 ^ 52).

(** The integer a binary64 denotes, when it denotes one. *)
Definition float64_integer_value (bits : Z) : option Z :=
  let negative := 2 ^ 63 <=? bits in
  let e := (bits / 2 ^ 52) mod 2 ^ 11 in
  let m := bits mod 2 ^ 52 in
  let signed (z : Z) := if negative then - z else z in
  if e =? 2047 then None
  else if e =? 0 then (if m =? 0 then Some 0 else None)
  else
    let M := m + 2 ^ 52 in
    let E := e - 1075 in
    if 0 <=? E then Some (signed (M * 2 ^ E))
    else if M mod 2 ^ (- E) =? 0 then Some (signed (M / 2 ^ (- E)))
    else None.

(** [math.MaxFloat64] and its negation, and the bias 100.0. *)
Definition MaxFloat64 : Z := 0x7FEFFFFFFFFFFFFF.
Definition neg_float64 (bits : Z) : Z := Z.lxor bits (2 ^ 63).
Definition float64_100 : Z := 0x4059000000000000.

(** ** Constants of the package *)

Definition maxStringLength : Z := 1024 * 50.
Definition maxPrintStringWidth : Z := 40.
Definition TimeOffset : Z := 12219379200.
Definition SPSS_NUMERIC : Z := 0.
Definition SPSS_FMT_A : Z := 1.
Definition SPSS_FMT_F : Z := 5.
Definition SPSS_FMT_DATE : Z := 20.
Definition SPSS_FMT_DATE_TIME : Z := 22.
Definition SPSS_MLVL_NOM : Z := 1.
Definition SPSS_MLVL_ORD : Z := 2.
Definition SPSS_MLVL_RAT : Z := 3.

(** ** The dictionary *)

Module Label.
Record t : Type := mk { Value : string; Desc : string }.
End Label.

Inductive DictType : Type :=
| DictTypeNumeric
| DictTypeDate
| DictTypeDatetime
| DictTypeString.

(** [Type] is a keyword of Rocq, the field is [Type_]. *)
Record Var : Type := mkVar {
  ColumnIndex : Z;
  Index : Z;
  Name : string;
  ShortName : string;
  Type_ : DictType;
  TypeSize : Z;
  Print : Z;
  Width : Z;
  Decimals : Z;
  Measure : Z;
  Label : string;
  Default : string;
  HasDefault : bool;
  Labels : list Label.t;
  Value : string;
  HasValue : bool;
  Segments : Z
}.

Definition set_Name (n : string) (v : Var) : Var :=
  mkVar (ColumnIndex v) (Index v) n (ShortName v) (Type_ v) (TypeSize v) (Print v)
    (Width v) (Decimals v) (Measure v) (Label v) (Default v) (HasDefault v) (Labels v)
    (Value v) (HasValue v) (Segments v).

Definition set_ShortName (n : string) (v : Var) : Var :=
  mkVar (ColumnIndex v) (Index v) (Name v) n (Type_ v) (TypeSize v) (Print v)
    (Width v) (Decimals v) (Measure v) (Label v) (Default v) (HasDefault v) (Labels v)
    (Value v) (HasValue v) (Segments v).

Definition set_Segments (n : Z) (v : Var) : Var :=
  mkVar (ColumnIndex v) (Index v) (Name v) (ShortName v) (Type_ v) (TypeSize v) (Print v)
    (Width v) (Decimals v) (Measure v) (Label v) (Default v) (HasDefault v) (Labels v)
    (Value v) (HasValue v) n.

Definition set_Index (n : Z) (v : Var) : Var :=
  mkVar (ColumnIndex v) n (Name v) (ShortName v) (Type_ v) (TypeSize v) (Print v)
    (Width v) (Decimals v) (Measure v) (Label v) (Default v) (HasDefault v) (Labels v)
    (Value v) (HasValue v) (Segments v).

Definition set_ColumnIndex (n : Z) (v : Var) : Var :=
  mkVar n (Index v) (Name v) (ShortName v) (Type_ v) (TypeSize v) (Print v)
    (Width v) (Decimals v) (Measure v) (Label v) (Default v) (HasDefault v) (Labels v)
    (Value v) (HasValue v) (Segments v).

Definition set_Value (s : string) (h : bool) (v : Var) : Var :=
  mkVar (ColumnIndex v) (Index v) (Name v) (ShortName v) (Type_ v) (TypeSize v) (Print v)
    (Width v) (Decimals v) (Measure v) (Label v) (Default v) (HasDefault v) (Labels v)
    s h (Segments v).

(** SegmentWidth returns the width of the given segment. *)
Definition SegmentWidth (v : Var) (index : Z) : Z :=
  if TypeSize v <=? 255 then TypeSize v
  else if index <? Segments v - 1 then 255
  else wrap32 (TypeSize v - wrap32 (wrap32 (Segments v - 1) * 252)).

Definition elementCount (width : Z) : Z :=
  wrap32 (Z.quot (wrap32 (width - 1)) 8 + 1).

(** [for i := 0; i < n; i++]: the values [i] takes. *)
Definition range (n : Z) : list Z := map Z.of_nat (seq 0 (Z.to_nat n)).

(** The regular expression [[^A-Za-z0-9#\$_\.]] matches every byte outside this
    set (a rune of several bytes, or a byte that is no UTF-8, has no byte in it),
    and [ReplaceAllLiteralString] with the empty string removes what matches. *)
Definition name_char (c : ascii) : bool :=
  is_upper c || is_lower c || is_digit c
  || Ascii.eqb c "#" || Ascii.eqb c "$" || Ascii.eqb c "_" || Ascii.eqb c ".".

Fixpoint string_filter (f : ascii -> bool) (s : string) : string :=
  match s with
  | "" => ""
  | String c s' => if f c then String c (string_filter f s') else string_filter f s'
  end.

Definition cleanVarName (n : string) : string :=
  let n := string_filter name_char n in
  let n := if (len n =? 0)%nat then "illegal" else n in
  let n :=
    match n with
    | String c _ => if negb (is_lower c) && negb (is_upper c) then "@" +:+ n else n
    | "" => n
    end in
  if (64 <? len n)%nat then string_take 64 n else n.

(** ** How a call ends *)

(** A Go [error] value; the writer only ever passes on what the sink reported. *)
Inductive error : Type :=
| io_error (call : nat).

Inductive outcome (A : Type) : Type :=
| Ok (a : A)        (* returned, with a nil error where the signature has one *)
| Err (e : error)   (* returned a non-nil error *)
| Fatal             (* log.Fatalf / log.Fatalln: the process exits *)
| Diverge.          (* a loop that never ends *)

Arguments Ok {A} a.
Arguments Err {A} e.
Arguments Fatal {A}.
Arguments Diverge {A}.

(** Code over a state [S]: the state after the call is there however the call ends
    (a method that returns an error has still changed its receiver). *)
Definition M (S A : Type) : Type := S -> outcome A * S.

Definition ret {S A : Type} (a : A) : M S A := fun s => (Ok a, s).

Definition bind {S A B : Type} (m : M S A) (k : A -> M S B) : M S B :=
  fun s =>
    match m s with
    | (Ok a, s') => k a s'
    | (Err e, s') => (Err e, s')
    | (Fatal, s') => (Fatal, s')
    | (Diverge, s') => (Diverge, s')
    end.

Notation "'let!' x ':=' m 'in' k" := (bind m (fun x => k))
  (at level 10, x name, m at level 100, k at level 200, only parsing).

(** [if err := m1(); err != nil { return err }; ...; return nil] *)
Fixpoint steps {S : Type} (ms : list (M S unit)) : M S unit :=
  match ms with
  | [] => ret tt
  | m :: ms' => bind m (fun _ => steps ms')
  end.

(** [for _, x := range xs { if err := body(x); err != nil { return err } }] *)
Definition for_each {S A : Type} (xs : list A) (body : A -> M S unit) : M S unit :=
  steps (map body xs).

Definition when {S : Type} (b : bool) (m : M S unit) : M S unit :=
  if b then m else ret tt.

(** Calling [m] and dropping what it returned, error included. *)
Definition ignore_result {S A : Type} (m : M S A) : M S unit :=
  fun s =>
    match m s with
    | (Ok _, s') | (Err _, s') => (Ok tt, s')
    | (Fatal, s') => (Fatal, s')
    | (Diverge, s') => (Diverge, s')
    end.

(** ** What the package gets from outside

    The sink, the random source, the clock and the two parsers of the Go library
    are not code of the package.  Everything below holds for every behaviour of
    them. *)
Class Externals : Type := {
  (** the [i]-th call on the sink: [None] it succeeds, [Some n] it fails after
      [n] bytes (at most) *)
  io_fault : nat -> option nat;
  (** the [i]-th call of [rand.Int()], a non-negative int *)
  rand_Int : nat -> N;
  (** [time.Parse(layout, value)]: the Unix time of the result, or a failure *)
  time_Parse : string -> string -> option Z;
  (** [strconv.ParseFloat(s, bitSize)]: the float64 returned, or a failure *)
  strconv_ParseFloat : string -> Z -> option Z;
  (** [time.Now().Format(layout)] *)
  time_Now_Format : string -> string
}.

(** ** The sink: a file, as [io.WriteSeeker] *)

Record File : Type := mkFile {
  f_data : list byte;   (* the bytes of the file *)
  f_off : nat;          (* the offset of the next write *)
  f_calls : nat         (* calls made on it so far *)
}.

(** Bytes [p] put at offset [off]; a gap past the end reads as zeros. *)
Definition write_at (data : list byte) (off : nat) (p : list byte) : list byte :=
  match p with
  | [] => data
  | _ => take off data ++ replicate (off - length data) x00 ++ p ++ drop (off + length p) data
  end.

Section Sink.
Context {ext : Externals}.

Definition File_Write (f : File) (p : list byte) : (nat * option error) * File :=
  match io_fault (f_calls f) with
  | None =>
      ((length p, None),
       mkFile (write_at (f_data f) (f_off f) p) (f_off f + length p) (S (f_calls f)))
  | Some n =>
      let q := take n p in
      ((length q, Some (io_error (f_calls f))),
       mkFile (write_at (f_data f) (f_off f) q) (f_off f + length q) (S (f_calls f)))
  end.

(** [Seek(offset, 0)]: an absolute offset. *)
Definition File_Seek (f : File) (offset : nat) : option error * File :=
  match io_fault (f_calls f) with
  | None => (None, mkFile (f_data f) offset (S (f_calls f)))
  | Some _ => (Some (io_error (f_calls f)), mkFile (f_data f) (f_off f) (S (f_calls f)))
  end.

(** *** [bufio.Writer]

    The buffered writer of the Go library over the file: a buffer of 4096
    bytes and a sticky error. *)
Record bufio_Writer : Type := mkBufio {
  buf : list byte;
  err : option error;
  wr : File
}.

Definition bufio_size : nat := 4096.

Definition Available (b : bufio_Writer) : nat := bufio_size - length (buf b).

Definition bufio_Flush (b : bufio_Writer) : option error * bufio_Writer :=
  match err b with
  | Some e => (Some e, b)
  | None =>
      match buf b with
      | [] => (None, b)
      | _ =>
          let '((n, e), f) := File_Write (wr b) (buf b) in
          match e with
          | Some e => (Some e, mkBufio (drop n (buf b)) (Some e) f)
          | None => (None, mkBufio [] None f)
          end
      end
  end.

(** The loop of [Write]: while [p] does not fit and no error is recorded, either
    hand [p] to the file (empty buffer) or fill the buffer and flush it.  Two
    rounds are the most it takes ([bufio_Write_loop_done]). *)
Fixpoint bufio_Write_loop (fuel : nat) (b : bufio_Writer) (p : list byte)
  : bufio_Writer * list byte :=
  match fuel with
  | O => (b, p)
  | S fuel' =>
      if (Available b <? length p)%nat && bool_decide (err b = None) then
        match buf b with
        | [] =>
            let '((n, e), f) := File_Write (wr b) p in
            bufio_Write_loop fuel' (mkBufio (buf b) e f) (drop n p)
        | _ =>
            let n := Available b in
            let b1 := mkBufio (buf b ++ take n p) (err b) (wr b) in
            bufio_Write_loop fuel' (snd (bufio_Flush b1)) (drop n p)
        end
      else (b, p)
  end.

Definition bufio_Write (b : bufio_Writer) (p : list byte) : option error * bufio_Writer :=
  let '(b, p) := bufio_Write_loop 3 b p in
  match err b with
  | Some e => (Some e, b)
  | None => (None, mkBufio (buf b ++ p) (err b) (wr b))
  end.

(** *** The compressed case stream *)

(** Modelled from the spec: the type [BytecodeWriter] (its file is not part of
    the sources at hand).  Section 4.2: a current block of up to 8 opcodes and
    the queue of their operand bytes; the bias is the float64 given to
    [NewBytecodeWriter]. *)
Record BytecodeWriter : Type := mkBytecode {
  bias : Z;
  command : list byte;
  data : list byte
}.

(** Modelled from the spec: [NewBytecodeWriter], which is not in the sources at
    hand; it starts with an empty block. *)
Definition NewBytecodeWriter (bias : Z) : BytecodeWriter := mkBytecode bias [] [].

(** *** The writer *)

(** [Dict] holds pointers in Go; a pointer to a variable is its position in
    [Dict], and the two maps hold such positions.  The embedded [*bufio.Writer]
    is [Writer]; [seeker] is the file under it, [wr Writer].  [bytecode] writes
    to [Writer].  [rand_calls] counts the draws made from the process-wide
    [math/rand] source. *)
(** The fields [Index] and [ColumnIndex] of the writer are [Index_] and
    [ColumnIndex_]: the plain names are the fields of [Var]. *)
Record SpssWriter : Type := mkSpssWriter {
  Writer : bufio_Writer;
  bytecode : BytecodeWriter;
  Dict : list Var;
  DictMap : gmap string nat;
  ShortMap : gmap string nat;
  Count : Z;
  Index_ : Z;
  ColumnIndex_ : Z;
  IgnoreMissingVar : bool;
  rand_calls : nat
}.

Definition seeker (out : SpssWriter) : File := wr (Writer out).

Definition set_Writer (w : bufio_Writer) (out : SpssWriter) : SpssWriter :=
  mkSpssWriter w (bytecode out) (Dict out) (DictMap out) (ShortMap out) (Count out)
    (Index_ out) (ColumnIndex_ out) (IgnoreMissingVar out) (rand_calls out).

Definition set_seeker (f : File) (out : SpssWriter) : SpssWriter :=
  set_Writer (mkBufio (buf (Writer out)) (err (Writer out)) f) out.

Definition set_bytecode (b : BytecodeWriter) (out : SpssWriter) : SpssWriter :=
  mkSpssWriter (Writer out) b (Dict out) (DictMap out) (ShortMap out) (Count out)
    (Index_ out) (ColumnIndex_ out) (IgnoreMissingVar out) (rand_calls out).

Definition set_Dict (d : list Var) (out : SpssWriter) : SpssWriter :=
  mkSpssWriter (Writer out) (bytecode out) d (DictMap out) (ShortMap out) (Count out)
    (Index_ out) (ColumnIndex_ out) (IgnoreMissingVar out) (rand_calls out).

Definition set_DictMap (m : gmap string nat) (out : SpssWriter) : SpssWriter :=
  mkSpssWriter (Writer out) (bytecode out) (Dict out) m (ShortMap out) (Count out)
    (Index_ out) (ColumnIndex_ out) (IgnoreMissingVar out) (rand_calls out).

Definition set_ShortMap (m : gmap string nat) (out : SpssWriter) : SpssWriter :=
  mkSpssWriter (Writer out) (bytecode out) (Dict out) (DictMap out) m (Count out)
    (Index_ out) (ColumnIndex_ out) (IgnoreMissingVar out) (rand_calls out).

Definition set_Count (c : Z) (out : SpssWriter) : SpssWriter :=
  mkSpssWriter (Writer out) (bytecode out) (Dict out) (DictMap out) (ShortMap out) c
    (Index_ out) (ColumnIndex_ out) (IgnoreMissingVar out) (rand_calls out).

Definition set_Index_ (i : Z) (out : SpssWriter) : SpssWriter :=
  mkSpssWriter (Writer out) (bytecode out) (Dict out) (DictMap out) (ShortMap out)
    (Count out) i (ColumnIndex_ out) (IgnoreMissingVar out) (rand_calls out).

Definition set_ColumnIndex_ (i : Z) (out : SpssWriter) : SpssWriter :=
  mkSpssWriter (Writer out) (bytecode out) (Dict out) (DictMap out) (ShortMap out)
    (Count out) (Index_ out) i (IgnoreMissingVar out) (rand_calls out).

Definition set_rand_calls (n : nat) (out : SpssWriter) : SpssWriter :=
  mkSpssWriter (Writer out) (bytecode out) (Dict out) (DictMap out) (ShortMap out)
    (Count out) (Index_ out) (ColumnIndex_ out) (IgnoreMissingVar out) n.

Definition NewSpssWriter (w : File) : SpssWriter :=
  mkSpssWriter (mkBufio [] None w) (NewBytecodeWriter float64_100) [] ∅ ∅ 0 1 0 false 0.

(** [out.Write(p)], the method of the embedded [*bufio.Writer]. *)
Definition Write_ (p : list byte) : M SpssWriter unit :=
  fun out =>
    let '(e, w) := bufio_Write (Writer out) p in
    (match e with Some e => Err e | None => Ok tt end, set_Writer w out).

(** [out.Flush()] *)
Definition Flush_ : M SpssWriter unit :=
  fun out =>
    let '(e, w) := bufio_Flush (Writer out) in
    (match e with Some e => Err e | None => Ok tt end, set_Writer w out).

(** [binary.Write(out, endian, x)] for the kinds of [x] the package writes. *)
Definition binary_Write_int32 (x : Z) : M SpssWriter unit := Write_ (le32 x).
Definition binary_Write_float64 (bits : Z) : M SpssWriter unit := Write_ (le64 bits).
Definition binary_Write_byte (x : Z) : M SpssWriter unit := Write_ [byte_of_Z x].
Definition binary_Write_bytes (p : list byte) : M SpssWriter unit := Write_ p.

End Sink.

Section Package.
Context {ext : Externals}.

(** *** The methods of [BytecodeWriter] *)

(** Modelled from the spec: the emission of a full block, part of the absent
    [BytecodeWriter].  Section 4.2: when the opcode count reaches 8 the 8 opcodes
    are emitted, followed by the accumulated operand bytes; the queue resets. *)
Definition bytecode_emit : M SpssWriter unit :=
  fun out =>
    steps [ Write_ (command (bytecode out));
            Write_ (data (bytecode out));
            (fun out => (Ok tt, set_bytecode (NewBytecodeWriter (bias (bytecode out))) out)) ]
      out.

(** Modelled from the spec: one opcode with its operand enters the current
    block of the absent [BytecodeWriter]; the block is emitted once it holds 8
    opcodes (section 4.2, streaming discipline). *)
Definition bytecode_put (op : Z) (operand : list byte) : M SpssWriter unit :=
  fun out =>
    let bc := bytecode out in
    let bc := mkBytecode (bias bc) (command bc ++ [byte_of_Z op]) (data bc ++ operand) in
    let out := set_bytecode bc out in
    if (8 <=? length (command bc))%nat then bytecode_emit out else (Ok tt, out).

(** Modelled from the spec: [BytecodeWriter.WriteMissing], not in the sources at
    hand.  Opcode 255, no operand. *)
Definition WriteMissing : M SpssWriter unit := bytecode_put 255 [].

(** Modelled from the spec: the opcode of a number that compresses.  Section 4.2:
    a value compresses to the opcode [v + bias] iff that is an integer in
    [1, 251]. *)
Definition compressed_opcode (bias number : Z) : option Z :=
  match float64_integer_value number, float64_integer_value bias with
  | Some i, Some b => if (1 <=? i + b) && (i + b <=? 251) then Some (i + b) else None
  | _, _ => None
  end.

(** Modelled from the spec: [BytecodeWriter.WriteNumber], not in the sources at
    hand.  The compressed opcode, or opcode 253 followed by the 8 bytes of the
    float64, little-endian. *)
Definition WriteNumber (number : Z) : M SpssWriter unit :=
  fun out =>
    match compressed_opcode (bias (bytecode out)) number with
    | Some op => bytecode_put op [] out
    | None => bytecode_put 253 (le64 number) out
    end.

(** Modelled from the spec: [BytecodeWriter.WriteString], not in the sources at
    hand.  Exactly [elements] chunks of 8 bytes, each space-padded; a chunk of 8
    spaces is opcode 254, any other is opcode 253 followed by the chunk. *)
Definition WriteString (val : string) (elements : Z) : M SpssWriter unit :=
  for_each (range elements)
    (fun i =>
       let chunk := stob (string_drop (8 * Z.to_nat i) val) 8 in
       if forallb (Byte.eqb x20) chunk then bytecode_put 254 []
       else bytecode_put 253 chunk).

(** Modelled from the spec: [BytecodeWriter.Flush], not in the sources at hand.
    Section 4.2: the remaining opcodes are padded to 8 with opcode 0 and the
    final block is emitted. *)
Definition bytecode_Flush : M SpssWriter unit :=
  fun out =>
    let bc := bytecode out in
    match command bc with
    | [] => (Ok tt, out)
    | _ =>
        let padded := command bc ++ replicate (8 - length (command bc)) x00 in
        bytecode_emit (set_bytecode (mkBytecode (bias bc) padded (data bc)) out)
    end.

(** *** Sizes *)

Definition caseSize (out : SpssWriter) : Z :=
  fold_left
    (fun size v =>
       fold_left (fun size s => wrap32 (size + elementCount (SegmentWidth v s)))
         (range (Segments v)) size)
    (Dict out) 0.

Definition VarCount (out : SpssWriter) : Z :=
  fold_left (fun count v => wrap32 (count + wrap32 (Segments v))) (Dict out) 0.

(** *** Building the dictionary *)

(** [log.Printf] only reports; it is left out. *)
Definition AddVar (v : Var) : M SpssWriter unit :=
  fun out =>
    if maxStringLength <? TypeSize v then (Fatal, out)
    else
      let origName := Name v in
      let name := cleanVarName (Name v) in
      let v := if String.eqb name (Name v) then v else set_Name name v in
      match DictMap out !! origName with
      | Some _ => (Fatal, out)
      | None =>
          let v := set_Segments 1 v in
          let v :=
            if 255 <? TypeSize v then set_Segments (Z.quot (TypeSize v + 251) 252) v
            else v in
          let v := set_Index (Index_ out) v in
          let index :=
            fold_left (fun index i => wrap32 (index + elementCount (SegmentWidth v i)))
              (range (Segments v)) (Index_ out) in
          let out := set_Index_ index out in
          let out := set_ColumnIndex_ (wrap32 (ColumnIndex_ out + 1)) out in
          let v := set_ColumnIndex (ColumnIndex_ out) v in
          let p := length (Dict out) in
          let out := set_Dict (Dict out ++ [v]) out in
          (Ok tt, set_DictMap (<[origName := p]> (DictMap out)) out)
      end.

Definition ClearCase : M SpssWriter unit :=
  fun out => (Ok tt, set_Dict (map (set_Value "" false) (Dict out)) out).

Definition SetVar (name value : string) : M SpssWriter unit :=
  fun out =>
    match DictMap out !! name with
    | None => if IgnoreMissingVar out then (Ok tt, out) else (Fatal, out)
    | Some p => (Ok tt, set_Dict (alter (set_Value value true) p (Dict out)) out)
    end.

(** *** Writing a case *)

(** writeString writes a string value for a case. *)
Fixpoint writeString_loop (v : Var) (segments : list Z) (val : string) : M SpssWriter unit :=
  match segments with
  | [] => ret tt
  | s :: segments' =>
      let '(p, val) :=
        if (255 <? len val)%nat then (string_take 255 val, string_drop 255 val)
        else (val, "") in
      let! _ := WriteString p (elementCount (SegmentWidth v s)) in
      writeString_loop v segments' val
  end.

Definition writeString (v : Var) (val : string) : M SpssWriter unit :=
  writeString_loop v (range (Segments v)) val.

(** The body of the loop of [WriteCase], for one variable. *)
Definition WriteCase_var (v : Var) : M SpssWriter unit :=
  if HasValue v || HasDefault v then
    let val := if HasValue v then Value v else Default v in
    if 0 <? TypeSize v then (* string *)
      let val :=
        if TypeSize v <? Z.of_nat (len val) then string_take (Z.to_nat (TypeSize v)) val
        else val in
      writeString v val
    else if Print v =? SPSS_FMT_DATE then
      if String.eqb val "" then
        binary_Write_float64 (neg_float64 MaxFloat64) (* Write missing *)
      else
        match time_Parse "2-Jan-2006" (Value v) with
        | None => WriteMissing
        | Some unix => WriteNumber (float64_of_int (wrap64 (unix + TimeOffset)))
        end
    else if Print v =? SPSS_FMT_DATE_TIME then
      if String.eqb val "" then WriteMissing
      else
        match time_Parse "2-Jan-2006 15:04:05" (Value v) with
        | None => WriteMissing
        | Some unix => WriteNumber (float64_of_int (wrap64 (unix + TimeOffset)))
        end
    else (* number *)
      if String.eqb val "" then WriteMissing
      else
        match strconv_ParseFloat val 64 with
        | None => WriteMissing
        | Some f => WriteNumber f
        end
  else (* Write missing value *)
    if 0 <? TypeSize v then writeString v ""
    else WriteMissing.

Definition WriteCase : M SpssWriter unit :=
  fun out =>
    (let! _ := for_each (Dict out) WriteCase_var in
     fun out => (Ok tt, set_Count (wrap32 (Count out + 1)) out))
      out.

(** *** Short names *)

(** The [for] loop of [makeShortName]; [fuel] bounds the rounds, and running
    out of it stands for a loop that does not end. *)
Fixpoint makeShortName_loop (fuel : nat) (baseName short : string) (segment : Z)
  : M SpssWriter string :=
  fun out =>
    match ShortMap out !! short with
    | None => (Ok short, out)
    | Some _ =>
        match fuel with
        | O => (Diverge, out)
        | S fuel' =>
            let appendText := ToUpper (ConvertIntToColumnName segment) in
            let segment := segment + 1 in
            if (3 <? len appendText)%nat then (* Come up with random name *)
              let r := Z.of_N (rand_Int (rand_calls out)) in
              makeShortName_loop fuel' baseName ("@" +:+ Itoa (Z.rem r 10000000)) segment
                (set_rand_calls (S (rand_calls out)) out)
            else makeShortName_loop fuel' baseName (baseName +:+ appendText) segment out
        end
    end.

(** [p] is the pointer [v]: the position in [Dict] of the variable [v]. *)
Definition makeShortName (fuel : nat) (p : nat) (v : Var) (segment : Z) : M SpssWriter string :=
  let baseName := ToUpper (trim (Name v) 5) in
  let! short := makeShortName_loop fuel baseName (baseName +:+ "0") segment in
  fun out => (Ok short, set_ShortMap (<[short := p]> (ShortMap out)) out).

(** *** The records written by [Start] *)

Definition headerRecord (fileLabel : string) : M SpssWriter unit :=
  fun out =>
    steps [ Write_ (stob "$FL2" 4);                                  (* rec_type *)
            Write_ (stob "@(#) SPSS DATA FILE - xml2sav 2.0" 60);    (* prod_name *)
            binary_Write_int32 2;                                    (* layout_code *)
            (fun out => binary_Write_int32 (caseSize out) out);      (* nominal_case_size *)
            binary_Write_int32 1;                                    (* compression *)
            binary_Write_int32 0;                                    (* weight_index *)
            binary_Write_int32 (-1);                                 (* ncases *)
            binary_Write_float64 float64_100;                        (* bias *)
            Write_ (stob (time_Now_Format "02 Jan 06") 9);           (* creation_date *)
            Write_ (stob (time_Now_Format "15:04:05") 8);            (* creation_time *)
            Write_ (stob fileLabel 64);                              (* file_label *)
            Write_ (stob (Repeat zero 3) 3) ]                        (* padding *)
      out.

(** If you use a buffer, supply it as the flusher argument.  After this close
    the file. *)
Definition updateHeaderNCases : M SpssWriter unit :=
  steps [ ignore_result bytecode_Flush;
          ignore_result Flush_;
          (fun out =>
             let '(e, f) := File_Seek (seeker out) 80 in
             (match e with Some e => Err e | None => Ok tt end, set_seeker f out));
          (fun out =>
             let '((_, e), f) := File_Write (seeker out) (le32 (Count out)) in
             (match e with Some e => Err e | None => Ok tt end, set_seeker f out)) ].

(** The seven fields of a continuation record (extended string part). *)
Definition continuationRecord : M SpssWriter unit :=
  steps [ binary_Write_int32 2;        (* rec_type *)
          binary_Write_int32 (-1);     (* extended string part *)
          binary_Write_int32 0;        (* has_var_label *)
          binary_Write_int32 0;        (* n_missing_values *)
          binary_Write_int32 0;        (* print *)
          binary_Write_int32 0;        (* write *)
          Write_ (stob "        " 8) ]. (* name *)

(** [pad := (m - n) % m; if pad < 0 { pad += m }] *)
Definition pad_to (m n : Z) : Z :=
  let pad := Z.rem (m - n) m in
  if pad <? 0 then pad + m else pad.

(** The body of the inner loop of [variableRecords]: segment [segment] of the
    variable [v], which is at position [p] of [Dict]. *)
Definition variableRecords_segment (fuel : nat) (p : nat) (v : Var) (segment : Z)
  : M SpssWriter unit :=
  let width := SegmentWidth v segment in
  let format :=
    if 0 <? TypeSize v then (* string *)
      wrap32 (Z.lor (wrap32 (Z.shiftl (Print v) 16)) (wrap32 (Z.shiftl width 8)))
    else (* number *)
      wrap32 (Z.lor (Z.lor (wrap32 (Z.shiftl (Print v) 16)) (wrap32 (Z.shiftl (Width v) 8)))
                (Decimals v)) in
  steps [ binary_Write_int32 2;        (* rec_type *)
          binary_Write_int32 width;    (* type (0 or strlen) *)
          (if (segment =? 0) && (0 <? len (Label v))%nat
           then binary_Write_int32 1   (* has_var_label *)
           else binary_Write_int32 0);
          binary_Write_int32 0;        (* n_missing_values *)
          binary_Write_int32 format;   (* print *)
          binary_Write_int32 format;   (* write *)
          (if segment =? 0 then (* first var *)
             let! short := makeShortName fuel p v segment in
             steps [ (fun out => (Ok tt, set_Dict (alter (set_ShortName short) p (Dict out)) out));
                     Write_ (stob short 8);   (* name *)
                     when (0 <? len (Label v))%nat
                       (steps [ binary_Write_int32 (wrap32 (Z.of_nat (len (Label v))));  (* label_len *)
                                Write_ (bytes_of_string (Label v));                     (* label *)
                                for_each (range (pad_to 4 (Z.of_nat (len (Label v)))))
                                  (fun _ => Write_ [x00]) ]) ]
           else (* segment > 0 *)
             let! short := makeShortName fuel p v segment in
             Write_ (stob short 8));   (* name (a fresh new one) *)
          when (8 <? width) (* handle long string *)
            (for_each (range (wrap32 (elementCount width - 1))) (fun _ => continuationRecord)) ].

(** The variables of [Dict] with their positions. *)
Definition pointers (d : list Var) : list (nat * Var) := imap (fun p v => (p, v)) d.

Definition variableRecords (fuel : nat) : M SpssWriter unit :=
  fun out =>
    for_each (pointers (Dict out))
      (fun '(p, v) => for_each (range (Segments v)) (variableRecords_segment fuel p v))
      out.

Definition atof (s : string) : M SpssWriter Z :=
  fun out =>
    match strconv_ParseFloat s 32 with
    | Some v => (Ok v, out)
    | None => (Fatal, out)
    end.

Definition valueLabelRecords_label (v : Var) (label : Label.t) : M SpssWriter unit :=
  let l := if (120 <? len (Label.Desc label))%nat then 120%nat else len (Label.Desc label) in
  steps [ (if TypeSize v =? 0
           then let! x := atof (Label.Value label) in binary_Write_float64 x   (* value *)
           else binary_Write_bytes (stob (Label.Value label) 8));
          binary_Write_byte (Z.of_nat l);          (* label_len *)
          Write_ (stob (Label.Desc label) l);      (* label *)
          for_each (range (pad_to 8 (Z.of_nat l + 1))) (fun _ => Write_ [x20]) ].

Definition valueLabelRecords_var (v : Var) : M SpssWriter unit :=
  when ((0 <? length (Labels v))%nat && (TypeSize v <=? 8))
    (steps [ binary_Write_int32 3;                                      (* rec_type *)
             binary_Write_int32 (wrap32 (Z.of_nat (length (Labels v)))); (* label_count *)
             for_each (Labels v) (valueLabelRecords_label v);
             binary_Write_int32 4;                                      (* rec_type *)
             binary_Write_int32 1;                                      (* var_count *)
             binary_Write_int32 (Index v) ]).                           (* vars *)

Definition valueLabelRecords : M SpssWriter unit :=
  fun out => for_each (Dict out) valueLabelRecords_var out.

Definition machineIntegerInfoRecord : M SpssWriter unit :=
  steps (map binary_Write_int32
           [ 7;       (* rec_type *)
             3;       (* subtype *)
             4;       (* size *)
             8;       (* count *)
             0;       (* version_major *)
             10;      (* version_minor *)
             1;       (* version_revision *)
             -1;      (* machine_code *)
             1;       (* floating_point_rep *)
             1;       (* compression_code *)
             2;       (* endianness *)
             65001 ]). (* character_code *)

Definition machineFloatingPointInfoRecord : M SpssWriter unit :=
  steps [ binary_Write_int32 7;                            (* rec_type *)
          binary_Write_int32 4;                            (* subtype *)
          binary_Write_int32 8;                            (* size *)
          binary_Write_int32 3;                            (* count *)
          binary_Write_float64 (neg_float64 MaxFloat64);   (* sysmis *)
          binary_Write_float64 MaxFloat64;                 (* highest *)
          binary_Write_float64 (neg_float64 MaxFloat64) ]. (* lowest *)

Definition variableDisplayParameterRecord_segment (v : Var) (s : Z) : M SpssWriter unit :=
  steps [ binary_Write_int32 (Measure v);   (* measure *)
          (if 0 <? TypeSize v then
             steps [ (if negb (s =? 0) then binary_Write_int32 8
                      else if TypeSize v <=? maxPrintStringWidth then binary_Write_int32 (TypeSize v)
                      else binary_Write_int32 maxPrintStringWidth);   (* width *)
                     binary_Write_int32 0 ]                           (* alignment (left) *)
           else
             steps [ binary_Write_int32 8;      (* width *)
                     binary_Write_int32 1 ]) ]. (* alignment (right) *)

Definition variableDisplayParameterRecord : M SpssWriter unit :=
  fun out =>
    steps [ binary_Write_int32 7;                                (* rec_type *)
            binary_Write_int32 11;                               (* subtype *)
            binary_Write_int32 4;                                (* size *)
            binary_Write_int32 (wrap32 (VarCount out * 3));      (* count *)
            for_each (Dict out)
              (fun v => for_each (range (Segments v)) (variableDisplayParameterRecord_segment v)) ]
      out.

(** The [bytes.Buffer] of [longVarNameRecords]; writing to it cannot fail. *)
Definition longVarNames_payload (d : list Var) : list byte :=
  concat
    (imap (fun i v =>
             bytes_of_string (ShortName v) ++ bytes_of_string "=" ++ bytes_of_string (Name v)
             ++ (if (Z.of_nat i <? Z.of_nat (length d) - 1) then [x09] else []))
       d).

Definition longVarNameRecords : M SpssWriter unit :=
  fun out =>
    let buf := longVarNames_payload (Dict out) in
    steps [ binary_Write_int32 7;     (* rec_type *)
            binary_Write_int32 13;    (* subtype *)
            binary_Write_int32 1;     (* size *)
            binary_Write_int32 (wrap32 (Z.of_nat (length buf)));
            Write_ buf ]
      out.

(** The [bytes.Buffer] of [veryLongStringRecord]. *)
Definition veryLongString_payload (d : list Var) : list byte :=
  concat
    (map (fun v =>
            if 1 <? Segments v then
              bytes_of_string (ShortName v) ++ bytes_of_string "="
              ++ stobp (Itoa (TypeSize v)) 5 zero ++ [x00; x09]
            else [])
       d).

Definition veryLongStringRecord : M SpssWriter unit :=
  fun out =>
    let b := existsb (fun v => 1 <? Segments v) (Dict out) in
    if negb b then
      (* There are no very long strings so don't write the record *)
      (Ok tt, out)
    else
      let buf := veryLongString_payload (Dict out) in
      steps [ binary_Write_int32 7;     (* rec_type *)
              binary_Write_int32 14;    (* subtype *)
              binary_Write_int32 1;     (* size *)
              binary_Write_int32 (wrap32 (Z.of_nat (length buf)));   (* count *)
              Write_ buf ]
        out.

Definition encodingRecord : M SpssWriter unit :=
  steps [ binary_Write_int32 7;      (* rec_type *)
          binary_Write_int32 20;     (* subtype *)
          binary_Write_int32 1;      (* size *)
          binary_Write_int32 5;      (* filler *)
          Write_ (stob "UTF-8" 5) ]. (* encoding *)

(** The [bytes.Buffer] of [longStringValueLabelsRecord]. *)
Definition longStringValueLabels_payload (d : list Var) : list byte :=
  concat
    (map (fun v =>
            if (0 <? length (Labels v))%nat && (8 <? TypeSize v) then
              le32 (wrap32 (Z.of_nat (len (ShortName v))))          (* var_name_len *)
              ++ bytes_of_string (ShortName v)                      (* var_name *)
              ++ le32 (TypeSize v)                                  (* var_width *)
              ++ le32 (wrap32 (Z.of_nat (length (Labels v))))       (* n_labels *)
              ++ concat
                   (map (fun l =>
                           le32 (wrap32 (Z.of_nat (len (Label.Value l))))   (* value_len *)
                           ++ bytes_of_string (Label.Value l)               (* value *)
                           ++ le32 (wrap32 (Z.of_nat (len (Label.Desc l)))) (* label_len *)
                           ++ bytes_of_string (Label.Desc l))               (* label *)
                      (Labels v))
            else [])
       d).

Definition longStringValueLabelsRecord : M SpssWriter unit :=
  fun out =>
    (* Check if we have any *)
    let any := existsb (fun v => (0 <? length (Labels v))%nat && (8 <? TypeSize v)) (Dict out) in
    if negb any then (Ok tt, out)
    else
      (* Create record *)
      let buf := longStringValueLabels_payload (Dict out) in
      steps [ binary_Write_int32 7;     (* rec_type *)
              binary_Write_int32 21;    (* subtype *)
              binary_Write_int32 1;     (* size *)
              binary_Write_int32 (wrap32 (Z.of_nat (length buf)));   (* count *)
              Write_ buf ]
        out.

Definition terminationRecord : M SpssWriter unit :=
  steps [ binary_Write_int32 999;   (* rec_type *)
          binary_Write_int32 0 ].   (* filler *)

Definition Start (fuel : nat) (fileLabel : string) : M SpssWriter unit :=
  steps [ headerRecord fileLabel;
          variableRecords fuel;
          valueLabelRecords;
          machineIntegerInfoRecord;
          machineFloatingPointInfoRecord;
          variableDisplayParameterRecord;
          longVarNameRecords;
          veryLongStringRecord;
          encodingRecord;
          longStringValueLabelsRecord;
          terminationRecord ].

Definition Finish : M SpssWriter unit := updateHeaderNCases.

End Package.

(** ** Callers *)

(** The calls of the API a caller makes on a writer. *)
Inductive call : Type :=
| CallAddVar (v : Var)
| CallStart (fileLabel : string)
| CallClearCase
| CallSetVar (name value : string)
| CallWriteCase
| CallFinish.

Definition is_WriteCase (c : call) : bool :=
  match c with CallWriteCase => true | _ => false end.

Section Callers.
Context {ext : Externals}.

Definition do_call (fuel : nat) (c : call) : M SpssWriter unit :=
  match c with
  | CallAddVar v => AddVar v
  | CallStart fileLabel => Start fuel fileLabel
  | CallClearCase => ClearCase
  | CallSetVar name value => SetVar name value
  | CallWriteCase => WriteCase
  | CallFinish => Finish
  end.

(** A caller makes the calls [cs] in order.  It may go on after a call that
    returned an error; after [log.Fatal] or in a loop without end it makes no
    further call.  [run] gives the writer after the last call and the number
    of [WriteCase] calls that returned nil, when the caller gets that far. *)
Fixpoint run (fuel : nat) (cs : list call) (out : SpssWriter) (successes : Z)
  : option (SpssWriter * Z) :=
  match cs with
  | [] => Some (out, successes)
  | c :: cs' =>
      match do_call fuel c out with
      | (Ok _, out') => run fuel cs' out' (if is_WriteCase c then successes + 1 else successes)
      | (Err _, out') => run fuel cs' out' successes
      | (Fatal, _) | (Diverge, _) => None
      end
  end.

(** What the writer has accepted so far, in order: the bytes in the file and,
    behind them, those still in the buffer (while the file is only appended to). *)
Definition written (out : SpssWriter) : list byte :=
  f_data (wr (Writer out)) ++ buf (Writer out).

End Callers.

(** ** One outside world, to run the writer on concrete inputs

    A sink that never fails, a random source that counts, a clock that stands
    still, and parsers that agree with Go's on what they accept: dates of the
    two layouts the package uses, and decimal integers of at most 7 digits
    (exact in float32 and float64 alike). *)
Module Sample.

Fixpoint digits_value (acc : Z) (s : string) : option Z :=
  match s with
  | "" => Some acc
  | String c s' =>
      if is_digit c then digits_value (10 * acc + (Z.of_N (N_of_ascii c) - 48)) s'
      else None
  end.

(** [getnum(s, fixed)] of package time: one or two digits, two if [fixed]. *)
Definition getnum (s : string) (fixed : bool) : option (Z * string) :=
  match s with
  | String c1 s1 =>
      if is_digit c1 then
        let d1 := Z.of_N (N_of_ascii c1) - 48 in
        match s1 with
        | String c2 s2 =>
            if is_digit c2 then Some (10 * d1 + (Z.of_N (N_of_ascii c2) - 48), s2)
            else if fixed then None else Some (d1, s1)
        | "" => if fixed then None else Some (d1, s1)
        end
      else None
  | "" => None
  end.

Definition expect (c : ascii) (s : string) : option string :=
  match s with
  | String c' s' => if Ascii.eqb c c' then Some s' else None
  | "" => None
  end.

Definition lower_char (c : ascii) : ascii :=
  if is_upper c then ascii_of_N (N_of_ascii c + 32) else c.

Fixpoint ToLower (s : string) : string :=
  match s with
  | "" => ""
  | String c s' => String (lower_char c) (ToLower s')
  end.

Definition shortMonthNames : list string :=
  ["jan"; "feb"; "mar"; "apr"; "may"; "jun"; "jul"; "aug"; "sep"; "oct"; "nov"; "dec"].

Fixpoint index_of (x : string) (l : list string) (i : Z) : option Z :=
  match l with
  | [] => None
  | y :: l' => if String.eqb x y then Some i else index_of x l' (i + 1)
  end.

Definition month (s : string) : option (Z * string) :=
  if (len s <? 3)%nat then None
  else
    match index_of (ToLower (string_take 3 s)) shortMonthNames 1 with
    | Some m => Some (m, string_drop 3 s)
    | None => None
    end.

Definition year (s : string) : option (Z * string) :=
  if (len s <? 4)%nat then None
  else
    match digits_value 0 (string_take 4 s) with
    | Some y => Some (y, string_drop 4 s)
    | None => None
    end.

Definition isLeap (y : Z) : bool :=
  (y mod 4 =? 0) && (negb (y mod 100 =? 0) || (y mod 400 =? 0)).

Definition daysIn (m y : Z) : Z :=
  if m =? 2 then (if isLeap y then 29 else 28)
  else if (m =? 4) || (m =? 6) || (m =? 9) || (m =? 11) then 30
  else 31.

(** Days from 1970-01-01 to the given day of the proleptic Gregorian calendar. *)
Definition days_from_civil (y m d : Z) : Z :=
  let y := if m <=? 2 then y - 1 else y in
  let era := y / 400 in
  let yoe := y - era * 400 in
  let doy := (153 * (if 2 <? m then m - 3 else m + 9) + 2) / 5 + d - 1 in
  let doe := yoe * 365 + yoe / 4 - yoe / 100 + doy in
  era * 146097 + doe - 719468.

Definition date (s : string) : option ((Z * Z * Z) * string) :=
  match getnum s false with
  | Some (d, s) =>
      match expect "-" s with
      | Some s =>
          match month s with
          | Some (m, s) =>
              match expect "-" s with
              | Some s =>
                  match year s with
                  | Some (y, s) => Some ((y, m, d), s)
                  | None => None
                  end
              | None => None
              end
          | None => None
          end
      | None => None
      end
  | None => None
  end.

Definition clock (s : string) : option ((Z * Z * Z) * string) :=
  match getnum s false with
  | Some (h, s) =>
      match expect ":" s with
      | Some s =>
          match getnum s true with
          | Some (mi, s) =>
              match expect ":" s with
              | Some s =>
                  match getnum s true with
                  | Some (sec, s) =>
                      if (h <? 24) && (mi <? 60) && (sec <? 60) then Some ((h, mi, sec), s)
                      else None
                  | None => None
                  end
              | None => None
              end
          | None => None
          end
      | None => None
      end
  | None => None
  end.

Definition unix (ymd hms : Z * Z * Z) : option Z :=
  let '(y, m, d) := ymd in
  let '(h, mi, sec) := hms in
  if (1 <=? d) && (d <=? daysIn m y)
  then Some (days_from_civil y m d * 86400 + h * 3600 + mi * 60 + sec)
  else None.

Definition Parse (layout value : string) : option Z :=
  if String.eqb layout "2-Jan-2006" then
    match date value with
    | Some (ymd, "") => unix ymd (0, 0, 0)
    | _ => None
    end
  else if String.eqb layout "2-Jan-2006 15:04:05" then
    match date value with
    | Some (ymd, s) =>
        match expect " " s with
        | Some s =>
            match clock s with
            | Some (hms, "") => unix ymd hms
            | _ => None
            end
        | None => None
        end
    | None => None
    end
  else None.

Definition ParseFloat (s : string) (bitSize : Z) : option Z :=
  let '(negative, digits) :=
    match s with
    | String "-" s' => (true, s')
    | String "+" s' => (false, s')
    | _ => (false, s)
    end in
  if (len digits =? 0)%nat || (7 <? len digits)%nat then None
  else
    match digits_value 0 digits with
    | Some n => Some (if negative && (n =? 0) then 2 ^ 63
                      else float64_of_int (if negative then - n else n))
    | None => None
    end.

Definition Now_Format (layout : string) : string :=
  if String.eqb layout "02 Jan 06" then "01 Jan 70"
  else if String.eqb layout "15:04:05" then "00:00:00"
  else layout.

Definition world : Externals :=
  {| io_fault := fun _ => None;
     rand_Int := fun i => N.of_nat i;
     time_Parse := Parse;
     strconv_ParseFloat := ParseFloat;
     time_Now_Format := Now_Format |}.

(** The same world, but for the sink: its call number [k] fails after [n] bytes. *)
Definition failing (k n : nat) : Externals :=
  {| io_fault := fun i => if (i =? k)%nat then Some n else None;
     rand_Int := fun i => N.of_nat i;
     time_Parse := Parse;
     strconv_ParseFloat := ParseFloat;
     time_Now_Format := Now_Format |}.

Definition file : File := mkFile [] 0 0.

(** A numeric variable, as [WriteDict] fills it in. *)
Definition numeric (name : string) : Var :=
  mkVar 0 0 name "" DictTypeNumeric SPSS_NUMERIC SPSS_FMT_F 8 2 SPSS_MLVL_NOM "" "" false [] "" false 0.

Definition date_var (name : string) : Var :=
  mkVar 0 0 name "" DictTypeDate SPSS_NUMERIC SPSS_FMT_DATE 11 0 SPSS_MLVL_RAT "" "" false [] "" false 0.

Definition datetime_var (name : string) : Var :=
  mkVar 0 0 name "" DictTypeDatetime SPSS_NUMERIC SPSS_FMT_DATE_TIME 20 0 SPSS_MLVL_RAT "" "" false [] "" false 0.

Definition string_var (name : string) (width : Z) : Var :=
  mkVar 0 0 name "" DictTypeString width SPSS_FMT_A (if 40 <? width then 40 else width mod 256) 0
    SPSS_MLVL_NOM "" "" false [] "" false 0.

Definition with_default (d : string) (v : Var) : Var :=
  mkVar (ColumnIndex v) (Index v) (Name v) (ShortName v) (Type_ v) (TypeSize v) (Print v)
    (Width v) (Decimals v) (Measure v) (Label v) d true (Labels v)
    (Value v) (HasValue v) (Segments v).

Definition with_labels (ls : list Label.t) (v : Var) : Var :=
  mkVar (ColumnIndex v) (Index v) (Name v) (ShortName v) (Type_ v) (TypeSize v) (Print v)
    (Width v) (Decimals v) (Measure v) (Label v) (Default v) (HasDefault v) ls
    (Value v) (HasValue v) (Segments v).

End Sample.

Example t1 : map ConvertIntToColumnName [35; 36; 47; 70; 71; 72; 1259; 1260; 1295; 1296; 0; 46655; 46656; -5]
  = [ "z"; "10"; "1b"; "1y"; "1z"; "20"; "yz"; "z0"; "zz"; "100"; "0"; "zzz"; "1000"; "-5"].
Proof. vm_compute. reflexivity. Qed.
Example t2 : map Itoa [0; 7; 10; 600; 51200; 9999999; -42] = ["0"; "7"; "10"; "600"; "51200"; "9999999"; "-42"].
Proof. vm_compute. reflexivity. Qed.
Example t3 : map cleanVarName ["1abc"; "a b-c"; ""; "q0001_other_1"] = ["@1abc"; "abc"; "illegal"; "q0001_other_1"].
Proof. vm_compute. reflexivity. Qed.
Example t4 : map float64_of_int [0; 1; 42; -1; 12219379200; 2^53+1; 2^63-1] = [0; 0x3FF0000000000000; 0x4045000000000000; 0xBFF0000000000000;0x4206c2a770000000; 0x4340000000000000; 0x43E0000000000000].
Proof. vm_compute. reflexivity. Qed.
Example t5 : map float64_integer_value [0; 0x3FF0000000000000; 0x4045000000000000; 0xBFF0000000000000;0x4206c2a770000000; float64_100; 0x3FF8000000000000; 0x7FF0000000000000]
 = [Some 0; Some 1; Some 42; Some (-1); Some 12219379200; Some 100; None; None].
Proof. vm_compute. reflexivity. Qed.

Example t6 : map (Sample.Parse "2-Jan-2006") ["1-Jan-1970"; ""; "bogus"; "31-dec-1969"; "29-Feb-2000"; "29-Feb-1900"; "1-Jan-1970x"; "01-Jan-2024"]
 = [Some 0; None; None; Some (-86400); Some 951782400; None; None; Some 1704067200].
Proof. vm_compute. reflexivity. Qed.
Example t7 : map (Sample.Parse "2-Jan-2006 15:04:05") ["1-Jan-1970 00:00:01"; ""; "1-Jan-1970"; "2-Jan-1970 1:02:03"; "2-Jan-1970 1:2:03"]
 = [Some 1; None; None; Some (86400+3723); None].
Proof. vm_compute. reflexivity. Qed.
Example t8 : map (fun s => Sample.ParseFloat s 64) ["42"; "-1"; ""; "x"; "100"] = [Some 0x4045000000000000; Some 0xBFF0000000000000; None; None; Some float64_100].
Proof. vm_compute. reflexivity. Qed.

(** ** Vocabulary of the statements *)

(** The file is only appended to: the next write goes to its end.  So it is for
    a file just created, and so it stays until [Finish] seeks. *)
Definition appending (f : File) : Prop := f_off f = length (f_data f).

(** What a buffered writer has accepted: the file, then the buffer. *)
Definition stream (b : bufio_Writer) : list byte := f_data (wr b) ++ buf b.

(** [m] changes nothing but the buffered writer and the case stream. *)
Definition only_io (out out' : SpssWriter) : Prop :=
  Dict out' = Dict out /\ DictMap out' = DictMap out /\ ShortMap out' = ShortMap out
  /\ Count out' = Count out /\ Index_ out' = Index_ out
  /\ ColumnIndex_ out' = ColumnIndex_ out /\ IgnoreMissingVar out' = IgnoreMissingVar out
  /\ rand_calls out' = rand_calls out.

(** [m] changes nothing but the buffered writer. *)
Definition only_Writer (out out' : SpssWriter) : Prop :=
  out' = set_Writer (Writer out') out.

Definition same_Count (out out' : SpssWriter) : Prop := Count out' = Count out.

(** However [m] ends, the writer it leaves is related by [R] to the one it found. *)
Definition keeps {A : Type} (R : SpssWriter -> SpssWriter -> Prop) (m : M SpssWriter A) : Prop :=
  forall out, R out (snd (m out)).

(** [m] returns: it neither exits the process nor loops. *)
Definition returns {A : Type} (m : M SpssWriter A) : Prop :=
  forall out, match fst (m out) with Ok _ | Err _ => True | Fatal | Diverge => False end.

(** From any writer that differs from [out0] in the buffered writer only, and
    whose file is appended to: [m] touches the buffered writer only; an error it
    returns is the one the buffered writer holds; and when it returns nil the bytes
    [bs] have been accepted, in order, behind what was there. *)
Definition emits (out0 : SpssWriter) (m : M SpssWriter unit) (bs : list byte) : Prop :=
  forall out,
    only_Writer out0 out ->
    appending (seeker out) ->
    appending (seeker (snd (m out)))
    /\ only_Writer out (snd (m out))
    /\ match fst (m out) with
       | Ok _ => written (snd (m out)) = written out ++ bs
       | Err e => err (Writer (snd (m out))) = Some e
       | Fatal | Diverge => False
       end.

(** [v.HasDefault = true; v.Default = d], as [WriteDict] declares a default. *)
Definition set_Default (d : string) (v : Var) : Var :=
  mkVar (ColumnIndex v) (Index v) (Name v) (ShortName v) (Type_ v) (TypeSize v) (Print v)
    (Width v) (Decimals v) (Measure v) (Label v) d true (Labels v)
    (Value v) (HasValue v) (Segments v).

(** The value [WriteCase] resolves for a variable that has one. *)
Definition resolved (v : Var) : string := if HasValue v then Value v else Default v.

(** Every character of [s] satisfies [f]. *)
Fixpoint string_forall (f : ascii -> bool) (s : string) : bool :=
  match s with
  | "" => true
  | String c s' => f c && string_forall f s'
  end.

Definition is_letter (c : ascii) : bool := is_lower c || is_upper c.

(** * Properties *)

(** ** Bounded case analysis *)

Lemma range_spec (n d : Z) : 0 <= d < n -> In d (range n).
Proof.
  intros H. unfold range. apply in_map_iff. exists (Z.to_nat d). split; [lia |].
  apply in_seq. lia.
Qed.

Lemma range_forallb (P : Z -> bool) (n : Z) :
  forallb P (range n) = true -> forall d, 0 <= d < n -> P d = true.
Proof.
  intros H d Hd. rewrite forallb_forall in H. apply H, range_spec, Hd.
Qed.

(** ** Base-36 numerals *)

Lemma base36_value_from_app (a : Z) (s t : string) :
  base36_value_from a (s +:+ t) =
  match base36_value_from a s with
  | Some b => base36_value_from b t
  | None => None
  end.
Proof.
  revert a. induction s as [| c s IH]; intros a; simpl; [reflexivity |].
  destruct (base36_digit c); [apply IH | reflexivity].
Qed.

(** A value below 36 is written as one character, the digit of that value. *)
Lemma getAlpabetByInt_digit (d : Z) :
  0 <= d < 36 ->
  exists c, getAlpabetByInt d = String c "" /\ base36_digit c = Some d
            /\ (c = "0"%char -> d = 0).
Proof.
  intros Hd.
  pose (check := fun d =>
    match getAlpabetByInt d with
    | String c "" =>
        match base36_digit c with
        | Some d' => (d' =? d) && (negb (Ascii.eqb c "0") || (d =? 0))
        | None => false
        end
    | _ => false
    end).
  assert (Hc : check d = true).
  { apply (range_forallb check 36); [vm_compute; reflexivity | exact Hd]. }
  unfold check in Hc.
  destruct (getAlpabetByInt d) as [| c [| ? ?]]; try discriminate.
  destruct (base36_digit c) as [d' |] eqn:Hb; try discriminate.
  apply andb_prop in Hc as [H1 H2]. apply Z.eqb_eq in H1. subst d'.
  exists c. split; [reflexivity |]. split; [exact Hb |].
  intros ->. simpl in H2. apply Z.eqb_eq in H2. exact H2.
Qed.

Lemma quot_36_step (s : Z) :
  0 <= s -> 1 <= Z.quot s 36 ->
  Z.quot (s - Z.rem s 36) 36 = s / 36 /\ 1 <= s / 36 /\ Z.log2 (s / 36) < Z.log2 s.
Proof.
  intros H0 H1.
  rewrite Z.quot_div_nonneg in H1 by lia.
  rewrite Z.rem_mod_nonneg by lia.
  assert (Hs : 36 <= s) by (pose proof (Z.mul_div_le s 36); pose proof (Z.mod_pos_bound s 36); nia).
  split; [| split].
  - rewrite Z.quot_div_nonneg; [| pose proof (Z.mod_pos_bound s 36); pose proof (Z.mod_le s 36); lia | lia].
    rewrite (Z.div_mod s 36) at 1 by lia.
    replace (36 * (s / 36) + s mod 36 - s mod 36) with ((s / 36) * 36) by lia.
    apply Z.div_mul. lia.
  - exact H1.
  - apply Z.log2_lt_pow2; [lia |].
    pose proof (Z.log2_spec s ltac:(lia)) as [Hlo _].
    assert (s / 36 < s / 2 + 1).
    { pose proof (Z.div_le_compat_l s 2 36 ltac:(lia) ltac:(lia)). lia. }
    assert (s / 2 < 2 ^ Z.log2 s).
    { apply Z.div_lt_upper_bound; [lia |].
      pose proof (Z.log2_spec s ltac:(lia)) as [_ Hhi].
      replace (Z.succ (Z.log2 s)) with (Z.log2 s + 1) in Hhi by lia.
      rewrite Z.pow_add_r in Hhi; [lia | apply Z.log2_nonneg | lia]. }
    lia.
Qed.

Lemma ConvertIntToColumnName_loop_value (fuel : nat) :
  forall (s : Z) (result : string),
    0 <= s -> Z.log2 s <= Z.of_nat fuel ->
    base36_value_from 0 (ConvertIntToColumnName_loop fuel s result) = base36_value_from s result
    /\ exists c r, ConvertIntToColumnName_loop fuel s result = String c r
                   /\ (c = "0"%char -> s = 0).
Proof.
  induction fuel as [| fuel IH]; intros s result H0 Hlog.
  - assert (Hs : s < 2).
    { destruct (Z.eq_dec s 0); [lia |].
      pose proof (Z.log2_spec s ltac:(lia)) as [_ Hhi].
      assert (Z.log2 s = 0) by (pose proof (Z.log2_nonneg s); lia).
      rewrite H in Hhi. simpl in Hhi. lia. }
    simpl. rewrite Z.rem_small by lia.
    destruct (getAlpabetByInt_digit s ltac:(lia)) as (c & -> & Hc & Hz).
    simpl. rewrite Hc. split; [f_equal |]. exists c, result. auto.
  - simpl. destruct (1 <=? Z.quot s 36) eqn:Hq.
    + apply Z.leb_le in Hq.
      destruct (quot_36_step s H0 Hq) as (-> & Hge & Hlt).
      destruct (IH (s / 36) (getAlpabetByInt (Z.rem s 36) +:+ result) ltac:(lia) ltac:(lia))
        as [Hval (c & r & Heq & Hz)].
      split.
      * rewrite Hval. rewrite Z.rem_mod_nonneg by lia.
        destruct (getAlpabetByInt_digit (s mod 36) ltac:(apply Z.mod_pos_bound; lia))
          as (d & -> & Hd & _).
        simpl. rewrite Hd. f_equal. rewrite (Z.div_mod s 36) at 3 by lia. lia.
      * exists c, r. split; [exact Heq |]. intros E. specialize (Hz E). lia.
    + apply Z.leb_gt in Hq. rewrite Z.quot_div_nonneg in Hq by lia.
      assert (Hs : s < 36).
      { destruct (Z_lt_ge_dec s 36); [assumption |].
        pose proof (Z.div_le_mono 36 s 36 ltac:(lia) ltac:(lia)).
        rewrite Z.div_same in H by lia. lia. }
      rewrite Z.rem_small by lia.
      destruct (getAlpabetByInt_digit s ltac:(lia)) as (c & -> & Hc & Hz).
      simpl. rewrite Hc. split; [f_equal |]. exists c, result. auto.
Qed.

(** More rounds than [Z.log2 s] change nothing: the loop has ended by then. *)
Lemma ConvertIntToColumnName_fuel (fuel : nat) :
  forall (s : Z) (result : string),
    0 <= s -> Z.log2 s <= Z.of_nat fuel ->
    ConvertIntToColumnName_loop (S fuel) s result = ConvertIntToColumnName_loop fuel s result.
Proof.
  induction fuel as [| fuel IH]; intros s result H0 Hlog.
  - assert (Hs : s < 2).
    { destruct (Z.eq_dec s 0); [lia |].
      pose proof (Z.log2_spec s ltac:(lia)) as [_ Hhi].
      assert (Z.log2 s = 0) by (pose proof (Z.log2_nonneg s); lia).
      rewrite H in Hhi. simpl in Hhi. lia. }
    simpl. rewrite (Z.quot_small s 36) by lia. reflexivity.
  - change (ConvertIntToColumnName_loop (S (S fuel)) s result)
      with (let denom := Z.rem s 36 in
            let result := getAlpabetByInt denom +:+ result in
            if 1 <=? Z.quot s 36
            then ConvertIntToColumnName_loop (S fuel) (Z.quot (s - denom) 36) result
            else result).
    change (ConvertIntToColumnName_loop (S fuel) s result)
      with (let denom := Z.rem s 36 in
            let result := getAlpabetByInt denom +:+ result in
            if 1 <=? Z.quot s 36
            then ConvertIntToColumnName_loop fuel (Z.quot (s - denom) 36) result
            else result).
    cbv zeta. destruct (1 <=? Z.quot s 36) eqn:Hq; [| reflexivity].
    apply Z.leb_le in Hq. destruct (quot_36_step s H0 Hq) as (-> & Hge & Hlt).
    apply IH; lia.
Qed.

(** C3.  For every non-negative [n], [ConvertIntToColumnName n] is the base-36
    numeral of [n] over the digits 0-9, a-z: it is not empty, its value is [n], and
    it has no leading zero unless [n] is 0.  The ten pairs of the test hold. *)
Theorem ConvertIntToColumnName_base36 (n : Z) :
  0 <= n ->
  base36_value (ConvertIntToColumnName n) = Some n
  /\ (exists c r, ConvertIntToColumnName n = String c r /\ (c = "0"%char -> n = 0))
  /\ map ConvertIntToColumnName [35; 36; 47; 70; 71; 72; 1259; 1260; 1295; 1296]
     = ["z"; "10"; "1b"; "1y"; "1z"; "20"; "yz"; "z0"; "zz"; "100"].
Proof.
  intros Hn.
  destruct (ConvertIntToColumnName_loop_value (Z.to_nat (Z.log2 n)) n "" Hn)
    as [Hval (c & r & Heq & Hz)].
  { pose proof (Z.log2_nonneg n). lia. }
  fold (ConvertIntToColumnName n) in Hval, Heq.
  split; [| split].
  - unfold base36_value. rewrite Heq. rewrite <- Heq. exact Hval.
  - exists c, r. auto.
  - vm_compute. reflexivity.
Qed.

Lemma ConvertIntToColumnName_base36_witness :
  0 <= 1295
  /\ base36_value (ConvertIntToColumnName 1295) = Some 1295.
Proof.
  split; [lia |]. apply (ConvertIntToColumnName_base36 1295). lia.
Defined.

(** ** Segments *)

Definition sum_Z (l : list Z) : Z := fold_right Z.add 0 l.

(** The sum of the widths of the segments of a variable. *)
Definition segment_widths (v : Var) : list Z := map (SegmentWidth v) (range (Segments v)).

Lemma range_succ (n : Z) : 0 <= n -> range (n + 1) = range n ++ [n].
Proof.
  intros Hn. unfold range.
  replace (Z.to_nat (n + 1)) with (Z.to_nat n + 1)%nat by lia.
  rewrite seq_app, map_app. simpl. rewrite Z2Nat.id by lia. reflexivity.
Qed.

Lemma range_In (n d : Z) : In d (range n) -> 0 <= d < n.
Proof.
  unfold range. intros H. apply in_map_iff in H as (k & <- & Hk). apply in_seq in Hk. lia.
Qed.

Lemma length_range (n : Z) : length (range n) = Z.to_nat n.
Proof. unfold range. rewrite length_map, length_seq. reflexivity. Qed.

Lemma sum_Z_app (l1 l2 : list Z) : sum_Z (l1 ++ l2) = sum_Z l1 + sum_Z l2.
Proof. induction l1 as [| x l1 IH]; simpl; [reflexivity | rewrite IH; lia]. Qed.

Lemma sum_Z_const (f : Z -> Z) (c : Z) (l : list Z) :
  (forall x, In x l -> f x = c) -> sum_Z (map f l) = c * Z.of_nat (length l).
Proof.
  induction l as [| x l IH]; intros H; simpl; [lia |].
  rewrite (H x) by (left; reflexivity). rewrite IH by (intros y Hy; apply H; right; exact Hy).
  lia.
Qed.

Lemma wrap32_small (z : Z) : - 2 ^ 31 <= z < 2 ^ 31 -> wrap32 z = z.
Proof. intros H. unfold wrap32. rewrite Z.mod_small; lia. Qed.

(** The number of segments [AddVar] gives a variable of type size [T]. *)
Definition segments_of (T : Z) : Z := if 255 <? T then Z.quot (T + 251) 252 else 1.

Lemma segments_of_bounds (T : Z) :
  255 < T -> T <= maxStringLength ->
  2 <= segments_of T <= 204 /\ 252 * (segments_of T - 1) < T <= 252 * segments_of T.
Proof.
  intros H1 H2. unfold segments_of, maxStringLength in *.
  destruct (255 <? T) eqn:E; [| apply Z.ltb_ge in E; lia].
  rewrite Z.quot_div_nonneg by lia.
  pose proof (Z.div_mod (T + 251) 252 ltac:(lia)).
  pose proof (Z.mod_pos_bound (T + 251) 252 ltac:(lia)).
  lia.
Qed.

(** What [SegmentWidth] gives for a variable whose [Segments] is what [AddVar]
    sets and whose type size [AddVar] lets through. *)
Lemma SegmentWidth_cases (v : Var) :
  TypeSize v <= maxStringLength ->
  Segments v = segments_of (TypeSize v) ->
  (TypeSize v <= 255 -> Segments v = 1 /\ forall s, SegmentWidth v s = TypeSize v)
  /\ (255 < TypeSize v ->
      (forall s, s < Segments v - 1 -> SegmentWidth v s = 255)
      /\ (forall s, Segments v - 1 <= s ->
                    SegmentWidth v s = TypeSize v - 252 * (Segments v - 1))).
Proof.
  intros Hmax Hseg. split.
  - intros Hle. split.
    + rewrite Hseg. unfold segments_of. destruct (255 <? TypeSize v) eqn:E; [| reflexivity].
      apply Z.ltb_lt in E. lia.
    + intros s. unfold SegmentWidth. destruct (TypeSize v <=? 255) eqn:E; [reflexivity |].
      apply Z.leb_gt in E. lia.
  - intros Hgt. destruct (segments_of_bounds (TypeSize v) Hgt Hmax) as [Hk Hb].
    rewrite <- Hseg in Hk, Hb. unfold maxStringLength in Hmax.
    split; intros s Hs; unfold SegmentWidth;
      (destruct (TypeSize v <=? 255) eqn:E; [apply Z.leb_le in E; lia |]).
    + destruct (s <? Segments v - 1) eqn:E2; [reflexivity | apply Z.ltb_ge in E2; lia].
    + destruct (s <? Segments v - 1) eqn:E2; [apply Z.ltb_lt in E2; lia |].
      rewrite (wrap32_small (Segments v - 1)) by lia.
      rewrite (wrap32_small ((Segments v - 1) * 252)) by lia.
      rewrite wrap32_small by lia. lia.
Qed.

Lemma segment_widths_sum (v : Var) :
  TypeSize v <= maxStringLength ->
  Segments v = segments_of (TypeSize v) ->
  sum_Z (segment_widths v) = TypeSize v + 3 * (Segments v - 1).
Proof.
  intros Hmax Hseg. destruct (SegmentWidth_cases v Hmax Hseg) as [Hsmall Hbig].
  unfold segment_widths.
  destruct (Z_le_gt_dec (TypeSize v) 255) as [Hle | Hgt].
  - destruct (Hsmall Hle) as [-> Hw]. simpl. rewrite Hw. lia.
  - destruct (Hbig ltac:(lia)) as [Hinner Hlast].
    destruct (segments_of_bounds (TypeSize v) ltac:(lia) Hmax) as [Hk _]. rewrite <- Hseg in Hk.
    replace (Segments v) with (Segments v - 1 + 1) at 1 by lia.
    rewrite range_succ by lia. rewrite map_app, sum_Z_app. simpl.
    rewrite (sum_Z_const _ 255) by (intros x Hx; apply Hinner; apply range_In in Hx; lia).
    rewrite Hlast by lia. rewrite length_range. lia.
Qed.

(** ** [AddVar] *)

(** The variable [AddVar] stores for [v] in the writer [out]. *)
Definition added (v : Var) (out : SpssWriter) : Var :=
  set_ColumnIndex (wrap32 (ColumnIndex_ out + 1))
    (set_Index (Index_ out)
       (set_Segments (segments_of (TypeSize v)) (set_Name (cleanVarName (Name v)) v))).

Lemma AddVar_spec (v : Var) (out : SpssWriter) :
  (maxStringLength < TypeSize v \/ is_Some (DictMap out !! Name v) ->
   AddVar v out = (Fatal, out))
  /\ (TypeSize v <= maxStringLength -> DictMap out !! Name v = None ->
      exists out',
        AddVar v out = (Ok tt, out')
        /\ Dict out' = Dict out ++ [added v out]
        /\ DictMap out' = <[Name v := length (Dict out)]> (DictMap out)
        /\ ShortMap out' = ShortMap out /\ Count out' = Count out
        /\ Writer out' = Writer out /\ bytecode out' = bytecode out).
Proof.
  unfold AddVar. split.
  - intros [H | [p H]].
    + apply Z.ltb_lt in H. rewrite H. reflexivity.
    + destruct (maxStringLength <? TypeSize v); [reflexivity |]. rewrite H. reflexivity.
  - intros Hmax Hnone.
    destruct (maxStringLength <? TypeSize v) eqn:E; [apply Z.ltb_lt in E; lia |].
    rewrite Hnone. eexists. split; [reflexivity |]. simpl.
    repeat split. f_equal. f_equal. unfold added, segments_of.
    destruct (cleanVarName (Name v) =? Name v)%string eqn:En.
    + apply String.eqb_eq in En. rewrite En. destruct v; simpl in *.
      destruct (255 <? TypeSize0); reflexivity.
    + destruct v; simpl in *. destruct (255 <? TypeSize0); reflexivity.
Qed.

Lemma AddVar_Ok (v : Var) (out out' : SpssWriter) :
  AddVar v out = (Ok tt, out') ->
  TypeSize v <= maxStringLength /\ DictMap out !! Name v = None
  /\ Dict out' = Dict out ++ [added v out]
  /\ DictMap out' = <[Name v := length (Dict out)]> (DictMap out)
  /\ ShortMap out' = ShortMap out /\ Count out' = Count out
  /\ Writer out' = Writer out /\ bytecode out' = bytecode out.
Proof.
  intros H. destruct (AddVar_spec v out) as [Hfatal Hok].
  destruct (Z_le_gt_dec (TypeSize v) maxStringLength) as [Hle | Hgt].
  - destruct (DictMap out !! Name v) as [p |] eqn:Hp.
    + rewrite Hfatal in H by (right; eauto). discriminate.
    + destruct (Hok Hle eq_refl) as (out2 & Heq & Hrest). rewrite Heq in H.
      injection H as <-. tauto.
  - rewrite Hfatal in H by (left; lia). discriminate.
Qed.

(** C2, as the code has it.  For a variable of type size [T] that [AddVar]
    accepts: it has one segment when [T <= 255] and [(T+251)/252] otherwise; every
    segment but the last is 255 wide, the last is [T - 252*(segments-1)] wide; so
    the widths add up to [T + 3*(segments-1)], which is [T] exactly when the
    variable has one segment. *)
Theorem SegmentWidth_sum (v : Var) (out out' : SpssWriter) :
  AddVar v out = (Ok tt, out') ->
  exists v',
    Dict out' = Dict out ++ [v'] /\ TypeSize v' = TypeSize v
    /\ Segments v' = (if 255 <? TypeSize v then (TypeSize v + 251) / 252 else 1)
    /\ (forall s, 0 <= s < Segments v' - 1 -> SegmentWidth v' s = 255)
    /\ SegmentWidth v' (Segments v' - 1) = TypeSize v - 252 * (Segments v' - 1)
    /\ sum_Z (segment_widths v') = TypeSize v + 3 * (Segments v' - 1)
    /\ (sum_Z (segment_widths v') = TypeSize v <-> TypeSize v <= 255).
Proof.
  intros H. apply AddVar_Ok in H as (Hmax & _ & HD & _).
  exists (added v out).
  assert (HT : TypeSize (added v out) = TypeSize v) by reflexivity.
  assert (HS : Segments (added v out) = segments_of (TypeSize (added v out))) by reflexivity.
  pose proof (SegmentWidth_cases (added v out) ltac:(rewrite HT; exact Hmax) HS) as [Hsmall Hbig].
  pose proof (segment_widths_sum (added v out) ltac:(rewrite HT; exact Hmax) HS) as Hsum.
  rewrite HT in *.
  split; [exact HD |]. split; [reflexivity |]. split.
  { rewrite HS. unfold segments_of. destruct (255 <? TypeSize v) eqn:E; [| reflexivity].
    apply Z.ltb_lt in E. apply Z.quot_div_nonneg; lia. }
  split.
  { intros s Hs. destruct (Z_le_gt_dec (TypeSize v) 255) as [Hle | Hgt].
    - destruct (Hsmall Hle) as [H1 _]. lia.
    - apply Hbig; lia. }
  split.
  { destruct (Z_le_gt_dec (TypeSize v) 255) as [Hle | Hgt].
    - destruct (Hsmall Hle) as [H1 Hw]. rewrite Hw, H1. lia.
    - apply Hbig; lia. }
  split; [exact Hsum |].
  rewrite Hsum. split.
  - intros E. destruct (Z_le_gt_dec (TypeSize v) 255) as [Hle | Hgt]; [exact Hle |].
    destruct (segments_of_bounds (TypeSize v) ltac:(lia) Hmax) as [Hk _].
    rewrite <- HS in Hk. lia.
  - intros Hle. destruct (Hsmall Hle) as [H1 _]. lia.
Qed.

Lemma SegmentWidth_sum_witness :
  exists v', Dict (snd (AddVar (Sample.string_var "essay" 600) (NewSpssWriter Sample.file))) = [] ++ [v']
             /\ sum_Z (segment_widths v') = 600 + 3 * (Segments v' - 1).
Proof.
  destruct (SegmentWidth_sum (Sample.string_var "essay" 600) (NewSpssWriter Sample.file)
              (snd (AddVar (Sample.string_var "essay" 600) (NewSpssWriter Sample.file))) eq_refl)
    as (v' & HD & _ & _ & _ & _ & Hsum & _).
  exists v'. split; [exact HD | exact Hsum].
Defined.

(** C2 as stated fails: the widths of the three segments of a variable of type
    size 600 are 255, 255 and 96, which add up to 606. *)
Lemma SegmentWidth_sum_600 :
  exists v',
    Dict (snd (AddVar (Sample.string_var "essay" 600) (NewSpssWriter Sample.file))) = [v']
    /\ TypeSize v' = 600 /\ Segments v' = 3
    /\ segment_widths v' = [255; 255; 96]
    /\ sum_Z (segment_widths v') <> TypeSize v'.
Proof.
  eexists. split; [vm_compute; reflexivity |]. vm_compute. repeat split. discriminate.
Qed.

(** ** The sink and the buffered writer *)

Lemma write_at_end (data p : list byte) : write_at data (length data) p = data ++ p.
Proof.
  unfold write_at. destruct p as [| x p]; [rewrite app_nil_r; reflexivity |].
  rewrite firstn_all, Nat.sub_diag. simpl.
  rewrite skipn_all2 by (simpl; lia). rewrite app_nil_r. reflexivity.
Qed.

Section SinkFacts.
Context {ext : Externals}.

Lemma File_Write_appending (f : File) (p : list byte) :
  appending f ->
  let '((n, e), f') := File_Write f p in
  appending f' /\ f_data f' = f_data f ++ take n p /\ (n <= length p)%nat
  /\ (e = None -> n = length p).
Proof.
  unfold appending, File_Write. intros Ha.
  destruct (io_fault (f_calls f)) as [k |]; simpl; rewrite Ha, write_at_end.
  - assert (Ht : take (length (take k p)) p = take k p).
    { rewrite length_take. destruct (Nat.le_gt_cases k (length p)).
      - rewrite Nat.min_l by lia. reflexivity.
      - rewrite Nat.min_r by lia. rewrite !take_ge by lia. reflexivity. }
    rewrite Ht, length_app, length_take.
    repeat split; [lia | discriminate].
  - rewrite length_app, firstn_all. repeat split; lia.
Qed.

Lemma bufio_Flush_spec (b : bufio_Writer) :
  appending (wr b) ->
  let '(e, b') := bufio_Flush b in
  appending (wr b') /\ stream b' = stream b /\ err b' = e.
Proof.
  intros Ha. unfold bufio_Flush.
  destruct (err b) as [e |] eqn:He; [auto |].
  destruct (buf b) as [| x l] eqn:Hb; [auto |].
  pose proof (File_Write_appending (wr b) (x :: l) Ha) as H.
  destruct (File_Write (wr b) (x :: l)) as [[n e] f].
  destruct H as (Ha' & Hd & Hn & He').
  unfold stream. rewrite Hb.
  destruct e as [e |]; simpl.
  - rewrite Hd, <- app_assoc, take_drop. auto.
  - rewrite Hd, (He' eq_refl), firstn_all, app_nil_r. auto.
Qed.

Lemma bufio_Write_loop_spec (fuel : nat) :
  forall (b : bufio_Writer) (p : list byte),
    appending (wr b) ->
    let '(b', p') := bufio_Write_loop fuel b p in
    appending (wr b') /\ stream b' ++ p' = stream b ++ p
    /\ (err b = None \/ err b' = err b).
Proof.
  induction fuel as [| fuel IH]; intros b p Ha; simpl; [auto |].
  destruct ((Available b <? length p)%nat && bool_decide (err b = None)) eqn:Hc; [| auto].
  apply andb_prop in Hc as [_ Herr]. apply bool_decide_eq_true in Herr.
  destruct (buf b) as [| x l] eqn:Hb.
  - pose proof (File_Write_appending (wr b) p Ha) as H.
    destruct (File_Write (wr b) p) as [[n e] f]. destruct H as (Ha' & Hd & Hn & _).
    specialize (IH (mkBufio [] e f) (drop n p) Ha').
    destruct (bufio_Write_loop fuel (mkBufio [] e f) (drop n p)) as [b' p'].
    destruct IH as (Ha2 & Hs & _). split; [exact Ha2 |]. split; [| auto].
    rewrite Hs. unfold stream. simpl. rewrite Hb, Hd, !app_nil_r, <- app_assoc, take_drop.
    reflexivity.
  - set (b1 := mkBufio (buf b ++ take (Available b) p) (err b) (wr b)).
    rewrite <- Hb.
    pose proof (bufio_Flush_spec b1 Ha) as H. fold b1.
    destruct (bufio_Flush b1) as [e b2]. destruct H as (Ha' & Hs1 & _). simpl.
    specialize (IH b2 (drop (Available b) p) Ha').
    destruct (bufio_Write_loop fuel b2 (drop (Available b) p)) as [b' p'].
    destruct IH as (Ha2 & Hs & _). split; [exact Ha2 |]. split; [| auto].
    rewrite Hs, Hs1. unfold stream, b1. simpl.
    rewrite <- !app_assoc, take_drop. reflexivity.
Qed.

Lemma bufio_Write_spec (b : bufio_Writer) (p : list byte) :
  appending (wr b) ->
  let '(e, b') := bufio_Write b p in
  appending (wr b') /\ err b' = e /\ (e = None -> stream b' = stream b ++ p).
Proof.
  intros Ha. unfold bufio_Write.
  pose proof (bufio_Write_loop_spec 3 b p Ha) as H.
  destruct (bufio_Write_loop 3 b p) as [b' p']. destruct H as (Ha' & Hs & _).
  destruct (err b') as [e |] eqn:He.
  - split; [exact Ha' |]. split; [exact He | discriminate].
  - simpl. split; [exact Ha' |]. split; [reflexivity |]. intros _.
    rewrite <- Hs. unfold stream. simpl. rewrite app_assoc. reflexivity.
Qed.

End SinkFacts.

(** ** Composing what calls keep, return and emit *)

#[local] Instance only_io_preorder : PreOrder only_io.
Proof.
  split.
  - intros out. unfold only_io. tauto.
  - intros a b c H1 H2. unfold only_io in *.
    destruct H1 as (? & ? & ? & ? & ? & ? & ? & ?), H2 as (? & ? & ? & ? & ? & ? & ? & ?).
    repeat split; congruence.
Qed.

#[local] Instance only_Writer_preorder : PreOrder only_Writer.
Proof.
  split.
  - intros out. destruct out. reflexivity.
  - intros a b c H1 H2. unfold only_Writer in *. rewrite H2, H1. reflexivity.
Qed.

#[local] Instance same_Count_preorder : PreOrder same_Count.
Proof.
  split.
  - intros out. reflexivity.
  - intros a b c H1 H2. unfold same_Count in *. congruence.
Qed.

Lemma only_Writer_only_io (out out' : SpssWriter) : only_Writer out out' -> only_io out out'.
Proof. intros ->. unfold only_io. simpl. tauto. Qed.

Lemma only_io_same_Count (out out' : SpssWriter) : only_io out out' -> same_Count out out'.
Proof. unfold only_io, same_Count. tauto. Qed.

Section Composition.
Context {A B : Type} (R : SpssWriter -> SpssWriter -> Prop) `{!PreOrder R}.

Lemma keeps_ret (a : A) : keeps R (ret a).
Proof. intros out. simpl. reflexivity. Qed.

Lemma keeps_bind (m : M SpssWriter A) (k : A -> M SpssWriter B) :
  keeps R m -> (forall a, keeps R (k a)) -> keeps R (bind m k).
Proof.
  intros Hm Hk out. unfold bind. specialize (Hm out).
  destruct (m out) as [[a | e | |] out1]; simpl in *; try exact Hm.
  transitivity out1; [exact Hm | apply Hk].
Qed.

Lemma keeps_ignore_result (m : M SpssWriter A) : keeps R m -> keeps R (ignore_result m).
Proof.
  intros Hm out. unfold ignore_result. specialize (Hm out).
  destruct (m out) as [[a | e | |] out1]; exact Hm.
Qed.

Lemma keeps_weaken (R' : SpssWriter -> SpssWriter -> Prop) (m : M SpssWriter A) :
  (forall out out', R' out out' -> R out out') -> keeps R' m -> keeps R m.
Proof. intros HR Hm out. apply HR, Hm. Qed.

End Composition.

Section CompositionUnit.
Context (R : SpssWriter -> SpssWriter -> Prop) `{!PreOrder R}.

Lemma keeps_steps (ms : list (M SpssWriter unit)) : Forall (keeps R) ms -> keeps R (steps ms).
Proof.
  induction 1 as [| m ms Hm _ IH]; simpl.
  - apply keeps_ret; assumption.
  - apply keeps_bind; [assumption | assumption | intros _; exact IH].
Qed.

Lemma keeps_for_each {X : Type} (xs : list X) (body : X -> M SpssWriter unit) :
  (forall x, In x xs -> keeps R (body x)) -> keeps R (for_each xs body).
Proof.
  intros H. apply keeps_steps. apply Forall_forall. intros m Hm.
  apply list_elem_of_In, in_map_iff in Hm as (x & <- & Hx). apply H, Hx.
Qed.

Lemma keeps_when (b : bool) (m : M SpssWriter unit) : keeps R m -> keeps R (when b m).
Proof. intros Hm. destruct b; [exact Hm | apply keeps_ret; assumption]. Qed.

End CompositionUnit.

Lemma returns_ret {A : Type} (a : A) : returns (ret a).
Proof. intros out. exact I. Qed.

Lemma returns_bind {A B : Type} (m : M SpssWriter A) (k : A -> M SpssWriter B) :
  returns m -> (forall a, returns (k a)) -> returns (bind m k).
Proof.
  intros Hm Hk out. unfold bind. specialize (Hm out).
  destruct (m out) as [[a | e | |] out1]; simpl in *; try tauto. apply Hk.
Qed.

Lemma returns_steps (ms : list (M SpssWriter unit)) : Forall returns ms -> returns (steps ms).
Proof.
  induction 1 as [| m ms Hm _ IH]; simpl.
  - apply returns_ret.
  - apply returns_bind; [assumption | intros _; exact IH].
Qed.

Lemma returns_for_each {X : Type} (xs : list X) (body : X -> M SpssWriter unit) :
  (forall x, In x xs -> returns (body x)) -> returns (for_each xs body).
Proof.
  intros H. apply returns_steps. apply Forall_forall. intros m Hm.
  apply list_elem_of_In, in_map_iff in Hm as (x & <- & Hx). apply H, Hx.
Qed.

Lemma returns_when (b : bool) (m : M SpssWriter unit) : returns m -> returns (when b m).
Proof. intros Hm. destruct b; [exact Hm | apply returns_ret]. Qed.

Lemma returns_ignore_result {A : Type} (m : M SpssWriter A) : returns m -> returns (ignore_result m).
Proof.
  intros Hm out. unfold ignore_result. specialize (Hm out).
  destruct (m out) as [[a | e | |] out1]; simpl in *; tauto.
Qed.

Section Emitting.
Context {ext : Externals} (out0 : SpssWriter).

Lemma emits_ret : emits out0 (ret tt) [].
Proof.
  intros out _ Ha. simpl. split; [exact Ha |]. split; [reflexivity |].
  rewrite app_nil_r. reflexivity.
Qed.

Lemma emits_Write (p : list byte) : emits out0 (Write_ p) p.
Proof.
  intros out _ Ha. unfold Write_.
  pose proof (bufio_Write_spec (Writer out) p Ha) as H.
  destruct (bufio_Write (Writer out) p) as [e w]. destruct H as (Ha' & He & Hs).
  simpl. split; [exact Ha' |]. split; [reflexivity |].
  destruct e as [e |]; [exact He |]. apply Hs. reflexivity.
Qed.

Lemma emits_then (m k : M SpssWriter unit) (a b : list byte) :
  emits out0 m a -> emits out0 k b -> emits out0 (bind m (fun _ => k)) (a ++ b).
Proof.
  intros Hm Hk out H0 Ha. unfold bind. specialize (Hm out H0 Ha).
  destruct (m out) as [[[] | e | |] out1]; simpl in *; try exact Hm.
  destruct Hm as (Ha1 & Hw1 & Hs1).
  assert (H1 : only_Writer out0 out1) by (etransitivity; eassumption).
  specialize (Hk out1 H1 Ha1).
  destruct (k out1) as [r out2]; simpl in *. destruct Hk as (Ha2 & Hw2 & Hs2).
  split; [exact Ha2 |]. split; [etransitivity; eassumption |].
  destruct r; try exact Hs2. rewrite Hs2, Hs1, app_assoc. reflexivity.
Qed.

Lemma emits_steps (ms : list (M SpssWriter unit)) (bss : list (list byte)) :
  Forall2 (emits out0) ms bss -> emits out0 (steps ms) (concat bss).
Proof.
  induction 1 as [| m bs ms bss Hm _ IH]; simpl.
  - apply emits_ret.
  - apply emits_then; assumption.
Qed.

Lemma emits_for_each {X : Type} (xs : list X) (body : X -> M SpssWriter unit)
      (f : X -> list byte) :
  (forall x, In x xs -> emits out0 (body x) (f x)) ->
  emits out0 (for_each xs body) (concat (map f xs)).
Proof.
  intros H. apply emits_steps. induction xs as [| x xs IH]; simpl; constructor.
  - apply H. left. reflexivity.
  - apply IH. intros y Hy. apply H. right. exact Hy.
Qed.

Lemma emits_when (b : bool) (m : M SpssWriter unit) (bs : list byte) :
  emits out0 m bs -> emits out0 (when b m) (if b then bs else []).
Proof. intros Hm. destruct b; [exact Hm | apply emits_ret]. Qed.

Lemma emits_eq (m : M SpssWriter unit) (bs bs' : list byte) :
  emits out0 m bs -> bs = bs' -> emits out0 m bs'.
Proof. intros H <-. exact H. Qed.

(** A step that first reads the writer. *)
Lemma emits_reader (f : SpssWriter -> M SpssWriter unit) (bs : list byte) :
  (forall o, only_Writer out0 o -> emits out0 (f o) bs) -> emits out0 (fun o => f o o) bs.
Proof. intros H o Ho Ha. exact (H o Ho o Ho Ha). Qed.

(** What [emits] says of one call. *)
Lemma emits_call (m : M SpssWriter unit) (bs : list byte) (out' : SpssWriter) (r : outcome unit) :
  emits out0 m bs -> appending (seeker out0) -> m out0 = (r, out') ->
  appending (seeker out') /\ only_Writer out0 out'
  /\ (r = Ok tt -> written out' = written out0 ++ bs)
  /\ (forall e, r = Err e -> err (Writer out') = Some e)
  /\ r <> Fatal /\ r <> Diverge.
Proof.
  intros Hm Ha E. specialize (Hm out0 ltac:(reflexivity) Ha). rewrite E in Hm. simpl in Hm.
  destruct Hm as (Ha' & Hw & Hr). split; [exact Ha' |]. split; [exact Hw |].
  destruct r as [[] | e | |]; try contradiction; repeat split; try discriminate; auto.
  intros e' [= <-]. exact Hr.
Qed.

End Emitting.

(** ** What the calls of the package keep *)

(** [R] does not look at the buffered writer, at the case stream. *)
Class WriterFrame (R : SpssWriter -> SpssWriter -> Prop) : Prop :=
  writer_frame : forall out w, R out (set_Writer w out).

Class BytecodeFrame (R : SpssWriter -> SpssWriter -> Prop) : Prop :=
  bytecode_frame : forall out b, R out (set_bytecode b out).

#[local] Instance only_Writer_WriterFrame : WriterFrame only_Writer.
Proof. intros out w. reflexivity. Qed.

#[local] Instance only_io_WriterFrame : WriterFrame only_io.
Proof. intros out w. unfold only_io. simpl. tauto. Qed.

#[local] Instance same_Count_WriterFrame : WriterFrame same_Count.
Proof. intros out w. reflexivity. Qed.

#[local] Instance only_io_BytecodeFrame : BytecodeFrame only_io.
Proof. intros out w. unfold only_io. simpl. tauto. Qed.

#[local] Instance same_Count_BytecodeFrame : BytecodeFrame same_Count.
Proof. intros out w. reflexivity. Qed.

Ltac split_Forall :=
  lazymatch goal with
  | |- Forall _ [] => constructor
  | |- Forall _ (_ :: _) => constructor; [| split_Forall]
  | |- Forall _ (map _ _) => simpl map; split_Forall
  end.

(** A step that first reads the writer [o] it is run on. *)
Ltac keeps_reader R o :=
  lazymatch goal with
  | |- R o (snd (if ?b then _ else _)) => destruct b; keeps_reader R o
  | |- R o (snd (_, _)) => simpl snd
  | |- R o (snd (?m o)) => refine ((_ : keeps R m) o)
  end.

Ltac returns_reader o :=
  lazymatch goal with
  | |- match fst (if ?b then _ else _) with _ => _ end => destruct b; returns_reader o
  | |- match fst (_, _) with _ => _ end => exact I
  | |- match fst (?m o) with _ => _ end => refine ((_ : returns m) o)
  end.

(** Takes a goal [keeps R m] or [returns m] apart along the structure of [m]. *)
Ltac compose_step :=
  lazymatch goal with
  | |- keeps _ (steps _) => apply keeps_steps; [typeclasses eauto .. | split_Forall]
  | |- keeps _ (for_each _ _) => apply keeps_for_each; [typeclasses eauto .. | intros ? ?]
  | |- keeps _ (bind _ _) => apply keeps_bind; [typeclasses eauto .. | | intros ?]
  | |- keeps _ (when _ _) => apply keeps_when; [typeclasses eauto .. |]
  | |- keeps _ (ignore_result _) => apply keeps_ignore_result
  | |- keeps _ (ret _) => apply keeps_ret; typeclasses eauto
  | |- keeps _ (if ?b then _ else _) => destruct b
  | |- keeps _ (match ?x with _ => _ end) => destruct x
  | |- keeps ?R (fun o => _) =>
      let o := fresh "out" in
      intros o; cbv beta; keeps_reader R o
  | |- returns (steps _) => apply returns_steps; split_Forall
  | |- returns (for_each _ _) => apply returns_for_each; intros ? ?
  | |- returns (bind _ _) => apply returns_bind; [| intros ?]
  | |- returns (when _ _) => apply returns_when
  | |- returns (ignore_result _) => apply returns_ignore_result
  | |- returns (ret _) => apply returns_ret
  | |- returns (if ?b then _ else _) => destruct b
  | |- returns (match ?x with _ => _ end) => destruct x
  | |- returns (fun o => _) =>
      let o := fresh "out" in
      intros o; cbv beta; returns_reader o
  end.

Create HintDb sav discriminated.

Ltac compose := repeat first [solve [auto with sav nocore] | compose_step].

Section Keeping.
Context {ext : Externals}.
Context (R : SpssWriter -> SpssWriter -> Prop) `{!PreOrder R}.

Lemma keeps_Write `{!WriterFrame R} (p : list byte) : keeps R (Write_ p).
Proof.
  intros out. unfold Write_. destruct (bufio_Write (Writer out) p) as [e w]. apply writer_frame.
Qed.

Lemma keeps_Flush `{!WriterFrame R} : keeps R Flush_.
Proof.
  intros out. unfold Flush_. destruct (bufio_Flush (Writer out)) as [e w]. apply writer_frame.
Qed.

Lemma keeps_bytecode_emit `{!WriterFrame R} `{!BytecodeFrame R} : keeps R bytecode_emit.
Proof.
  unfold bytecode_emit. compose_step. compose_step.
  - apply keeps_Write; assumption.
  - apply keeps_Write; assumption.
  - intros o. apply bytecode_frame.
Qed.

Lemma keeps_bytecode_put `{!WriterFrame R} `{!BytecodeFrame R} (op : Z) (operand : list byte) :
  keeps R (bytecode_put op operand).
Proof.
  intros out. unfold bytecode_put.
  set (out1 := set_bytecode _ out).
  assert (H1 : R out out1) by apply bytecode_frame.
  destruct (8 <=? _)%nat.
  - transitivity out1; [exact H1 | apply keeps_bytecode_emit].
  - exact H1.
Qed.

Lemma keeps_bytecode_Flush `{!WriterFrame R} `{!BytecodeFrame R} : keeps R bytecode_Flush.
Proof.
  intros out. unfold bytecode_Flush. destruct (command (bytecode out)); [reflexivity |].
  set (out1 := set_bytecode _ out).
  transitivity out1; [apply bytecode_frame | apply keeps_bytecode_emit].
Qed.

End Keeping.

Section Returning.
Context {ext : Externals}.

Lemma returns_Write (p : list byte) : returns (Write_ p).
Proof.
  intros out. unfold Write_. destruct (bufio_Write (Writer out) p) as [[e |] w]; exact I.
Qed.

Lemma returns_Flush : returns Flush_.
Proof.
  intros out. unfold Flush_. destruct (bufio_Flush (Writer out)) as [[e |] w]; exact I.
Qed.

Lemma returns_bytecode_emit : returns bytecode_emit.
Proof.
  unfold bytecode_emit. compose_step. compose_step.
  - apply returns_Write.
  - apply returns_Write.
  - intros o. exact I.
Qed.

Lemma returns_bytecode_put (op : Z) (operand : list byte) : returns (bytecode_put op operand).
Proof.
  intros out. unfold bytecode_put. destruct (8 <=? _)%nat; [apply returns_bytecode_emit | exact I].
Qed.

Lemma returns_bytecode_Flush : returns bytecode_Flush.
Proof.
  intros out. unfold bytecode_Flush. destruct (command (bytecode out)); [exact I |].
  apply returns_bytecode_emit.
Qed.

End Returning.

#[local] Hint Resolve keeps_Write keeps_Flush keeps_bytecode_emit keeps_bytecode_put
  keeps_bytecode_Flush returns_Write returns_Flush returns_bytecode_emit returns_bytecode_put
  returns_bytecode_Flush : sav.
#[local] Hint Extern 1 (PreOrder _) => typeclasses eauto : sav.
#[local] Hint Extern 2 (same_Count _ _) => unfold same_Count; reflexivity : sav.
#[local] Hint Extern 2 (only_io _ _) => unfold only_io; simpl; tauto : sav.
#[local] Hint Extern 2 (only_Writer _ _) => reflexivity : sav.
#[local] Hint Extern 1 (WriterFrame _) => typeclasses eauto : sav.
#[local] Hint Extern 1 (BytecodeFrame _) => typeclasses eauto : sav.
#[local] Hint Unfold binary_Write_int32 binary_Write_float64 binary_Write_byte binary_Write_bytes
  WriteMissing : sav.

(** ** Writing a case *)

Section CaseWriting.
Context {ext : Externals}.

Lemma keeps_WriteNumber (number : Z) : keeps only_io (WriteNumber number).
Proof.
  intros out. unfold WriteNumber.
  destruct (compressed_opcode _ _); apply keeps_bytecode_put; typeclasses eauto.
Qed.

Lemma returns_WriteNumber (number : Z) : returns (WriteNumber number).
Proof.
  intros out. unfold WriteNumber.
  destruct (compressed_opcode _ _); apply returns_bytecode_put.
Qed.

Lemma keeps_WriteString (val : string) (elements : Z) : keeps only_io (WriteString val elements).
Proof. unfold WriteString. compose. Qed.

Lemma returns_WriteString (val : string) (elements : Z) : returns (WriteString val elements).
Proof. unfold WriteString. compose. Qed.

Lemma keeps_writeString (v : Var) (val : string) : keeps only_io (writeString v val).
Proof.
  unfold writeString. generalize (range (Segments v)) as segments. intros segments. revert val.
  induction segments as [| s segments IH]; intros val; simpl.
  - apply keeps_ret; typeclasses eauto.
  - destruct (255 <? len val)%nat;
      (apply keeps_bind; [typeclasses eauto | apply keeps_WriteString | intros _; apply IH]).
Qed.

Lemma returns_writeString (v : Var) (val : string) : returns (writeString v val).
Proof.
  unfold writeString. generalize (range (Segments v)) as segments. intros segments. revert val.
  induction segments as [| s segments IH]; intros val; simpl.
  - apply returns_ret.
  - destruct (255 <? len val)%nat;
      (apply returns_bind; [apply returns_WriteString | intros _; apply IH]).
Qed.

#[local] Hint Resolve keeps_WriteNumber returns_WriteNumber keeps_writeString returns_writeString : sav.

Lemma keeps_WriteCase_var (v : Var) : keeps only_io (WriteCase_var v).
Proof. unfold WriteCase_var. autounfold with sav. compose. Qed.

Lemma returns_WriteCase_var (v : Var) : returns (WriteCase_var v).
Proof. unfold WriteCase_var. autounfold with sav. compose. Qed.

(** What a call of [WriteCase] does to the writer: the variables are encoded
    without a change to anything but the buffered writer and the case stream;
    [Count] goes up by one when, and only when, that went through. *)
Lemma WriteCase_spec (out : SpssWriter) :
  exists out1,
    for_each (Dict out) WriteCase_var out = (fst (for_each (Dict out) WriteCase_var out), out1)
    /\ only_io out out1
    /\ match fst (for_each (Dict out) WriteCase_var out) with
       | Ok _ => WriteCase out = (Ok tt, set_Count (wrap32 (Count out + 1)) out1)
       | Err e => WriteCase out = (Err e, out1)
       | Fatal | Diverge => False
       end.
Proof.
  pose proof (keeps_for_each only_io (Dict out) WriteCase_var
                (fun v _ => keeps_WriteCase_var v) out) as Hk.
  pose proof (returns_for_each (Dict out) WriteCase_var
                (fun v _ => returns_WriteCase_var v) out) as Hr.
  unfold WriteCase, bind.
  destruct (for_each (Dict out) WriteCase_var out) as [r out1]. simpl in *.
  exists out1. split; [reflexivity |]. split; [exact Hk |].
  destruct r as [[] | e | |]; try contradiction; try reflexivity.
  destruct Hk as (_ & _ & _ & -> & _). reflexivity.
Qed.

End CaseWriting.

(** C10.  [WriteCase] returns (it neither exits nor loops).  When it returns nil,
    [Count] has gone up by exactly one (in int32 arithmetic) and every variable of
    the dictionary was encoded without an error; when it returns an error, [Count]
    is what it was.  In both cases the dictionary and its maps are untouched. *)
Theorem WriteCase_Count {ext : Externals} (out : SpssWriter) :
  match WriteCase out with
  | (Ok _, out') =>
      Count out' = wrap32 (Count out + 1)
      /\ (Count out < MaxInt32 -> 0 <= Count out -> Count out' = Count out + 1)
      /\ (exists out1, for_each (Dict out) WriteCase_var out = (Ok tt, out1))
      /\ Dict out' = Dict out /\ DictMap out' = DictMap out /\ ShortMap out' = ShortMap out
  | (Err e, out') =>
      Count out' = Count out
      /\ (exists out1, for_each (Dict out) WriteCase_var out = (Err e, out1))
      /\ Dict out' = Dict out /\ DictMap out' = DictMap out /\ ShortMap out' = ShortMap out
  | (Fatal, _) | (Diverge, _) => False
  end.
Proof.
  destruct (WriteCase_spec out) as (out1 & Hrun & Hio & Hres).
  destruct Hio as (HD & HM & HS & HC & _).
  destruct (fst (for_each (Dict out) WriteCase_var out)) as [[] | e | |] eqn:Hf;
    try contradiction; rewrite Hres; simpl.
  - split; [reflexivity |]. split.
    + intros H1 H2. apply wrap32_small. unfold MaxInt32 in H1. lia.
    + split; [exists out1; exact Hrun | auto].
  - split; [exact HC |]. split; [exists out1; exact Hrun | auto].
Qed.

(** An error does happen, and bytes of the case that failed are in the file by
    then.  One string variable of width 255; the first call on the sink, which
    comes when the tenth case fills the buffer, fails after 100 bytes. *)
Example WriteCase_error_leaves_bytes :
  let ext := Sample.failing 0 100 in
  match run 10
          ([CallAddVar (Sample.string_var "a" 255); CallStart ""]
           ++ concat (replicate 9 [CallClearCase; CallSetVar "a" (Repeat "x" 255); CallWriteCase]))
          (NewSpssWriter Sample.file) 0 with
  | Some (out, n) =>
      match WriteCase (snd (SetVar "a" (Repeat "x" 255) out)) with
      | (Err _, out') =>
          n = 9 /\ Count out' = 9
          /\ length (f_data (seeker out)) = 0%nat /\ length (f_data (seeker out')) = 100%nat
      | _ => False
      end
  | None => False
  end.
Proof. vm_compute. repeat split. Qed.

(** ** Bytes and 32-bit integers *)

Lemma Z_of_byte_of_Z (z : Z) : Z_of_byte (byte_of_Z z) = z mod 256.
Proof.
  unfold Z_of_byte, byte_of_Z.
  pose proof (Z.mod_pos_bound z 256 ltac:(lia)) as Hb.
  destruct (Byte.of_N (Z.to_N (z mod 256))) as [b |] eqn:E.
  - apply Byte.to_of_N in E. rewrite E. lia.
  - apply Byte.of_N_None_iff in E. lia.
Qed.

Lemma wrap32_range (z : Z) : - 2 ^ 31 <= wrap32 z < 2 ^ 31.
Proof. unfold wrap32. pose proof (Z.mod_pos_bound (z + 2 ^ 31) (2 ^ 32) ltac:(lia)). lia. Qed.

Lemma wrap32_eqm (z : Z) : exists q, wrap32 z = z + q * 2 ^ 32.
Proof.
  exists (- ((z + 2 ^ 31) / 2 ^ 32)). unfold wrap32.
  pose proof (Z.div_mod (z + 2 ^ 31) (2 ^ 32) ltac:(lia)). lia.
Qed.

Lemma wrap32_succ (n : Z) : wrap32 (wrap32 n + 1) = wrap32 (n + 1).
Proof.
  destruct (wrap32_eqm n) as [q Hq]. rewrite Hq. unfold wrap32.
  replace (n + q * 2 ^ 32 + 1 + 2 ^ 31) with (n + 1 + 2 ^ 31 + q * 2 ^ 32) by lia.
  rewrite Z.mod_add by lia. reflexivity.
Qed.

Lemma byte_of_Z_shift (z q k : Z) :
  0 <= k <= 24 -> byte_of_Z ((z + q * 2 ^ 32) / 2 ^ k) = byte_of_Z (z / 2 ^ k).
Proof.
  intros Hk. unfold byte_of_Z.
  replace (z + q * 2 ^ 32) with (z + (q * 2 ^ (32 - k)) * 2 ^ k).
  2:{ rewrite <- Z.mul_assoc, <- Z.pow_add_r by lia. replace (32 - k + k) with 32 by lia. reflexivity. }
  rewrite Z.div_add by (apply Z.pow_nonzero; lia).
  replace (q * 2 ^ (32 - k)) with ((q * 2 ^ (24 - k)) * 256).
  2:{ rewrite <- Z.mul_assoc. change 256 with (2 ^ 8). rewrite <- Z.pow_add_r by lia.
      replace (24 - k + 8) with (32 - k) by lia. reflexivity. }
  rewrite Z.mod_add by lia. reflexivity.
Qed.

(** The four bytes of an [int32] depend on its low 32 bits only. *)
Lemma le32_wrap32 (z : Z) : le32 (wrap32 z) = le32 z.
Proof.
  destruct (wrap32_eqm z) as [q ->]. unfold le32.
  rewrite <- (Z.div_1_r (z + q * 2 ^ 32)) at 1. rewrite <- (Z.div_1_r z) at 5.
  change 1 with (2 ^ 0) at 1 2.
  rewrite !byte_of_Z_shift by lia. reflexivity.
Qed.

Lemma length_le32 (z : Z) : length (le32 z) = 4%nat.
Proof. reflexivity. Qed.

Lemma length_le64 (z : Z) : length (le64 z) = 8%nat.
Proof. reflexivity. Qed.

(** Reading back the bytes of an [int32] gives that [int32]. *)
Lemma int32_of_le_le32 (z : Z) : - 2 ^ 31 <= z < 2 ^ 31 -> int32_of_le (le32 z) = z.
Proof.
  intros Hz. unfold int32_of_le, le_unsigned, le32. simpl.
  rewrite !Z_of_byte_of_Z.
  assert (E : z mod 256 + 256 * ((z / 2 ^ 8) mod 256 + 256 * ((z / 2 ^ 16) mod 256
               + 256 * ((z / 2 ^ 24) mod 256 + 256 * 0))) = z mod 2 ^ 32).
  { change (2 ^ 32) with (256 * (256 * (256 * 256))).
    rewrite !Z.rem_mul_r by lia.
    change (2 ^ 8) with 256. change (2 ^ 16) with (256 * 256). change (2 ^ 24) with (256 * 256 * 256).
    rewrite <- !Z.div_div by lia. lia. }
  rewrite E. unfold wrap32. rewrite Zplus_mod_idemp_l.
  rewrite Z.mod_small by lia. lia.
Qed.

Lemma write_at_read (data p : list byte) (off : nat) :
  take (length p) (drop off (write_at data off p)) = p.
Proof.
  unfold write_at. destruct p as [| x p]; [reflexivity |].
  set (q := x :: p).
  assert (Hl : length (take off data ++ replicate (off - length data) x00) = off).
  { rewrite length_app, length_take, length_replicate. lia. }
  rewrite app_assoc. rewrite drop_app_length' by (symmetry; exact Hl).
  rewrite take_app_length. reflexivity.
Qed.

(** ** The case count *)

Lemma keeps_pure {A : Type} (R : SpssWriter -> SpssWriter -> Prop) (a : SpssWriter -> outcome A)
      (f : SpssWriter -> SpssWriter) :
  (forall out, R out (f out)) -> keeps R (fun out => (a out, f out)).
Proof. intros H out. apply H. Qed.

(** [R] does not look at the short names, the short-name map or the random source. *)
Class ShortNameFrame (R : SpssWriter -> SpssWriter -> Prop) : Prop := {
  shortmap_frame : forall out m, R out (set_ShortMap m out);
  rand_frame : forall out n, R out (set_rand_calls n out);
  shortname_frame : forall out s p, R out (set_Dict (alter (set_ShortName s) p (Dict out)) out)
}.

#[local] Instance same_Count_ShortNameFrame : ShortNameFrame same_Count.
Proof. split; intros; reflexivity. Qed.

Section StartKept.
Context {ext : Externals}.
Context (R : SpssWriter -> SpssWriter -> Prop) `{!PreOrder R} `{!WriterFrame R}
        `{!ShortNameFrame R}.

Lemma keeps_makeShortName_loop (fuel : nat) :
  forall (baseName short : string) (segment : Z),
    keeps R (makeShortName_loop fuel baseName short segment).
Proof.
  induction fuel as [| fuel IH]; intros baseName short segment out; simpl.
  - destruct (ShortMap out !! short); reflexivity.
  - destruct (ShortMap out !! short); [| reflexivity].
    destruct (3 <? len _)%nat.
    + etransitivity; [apply rand_frame | apply IH].
    + apply IH.
Qed.

Lemma keeps_makeShortName (fuel p : nat) (v : Var) (segment : Z) :
  keeps R (makeShortName fuel p v segment).
Proof.
  unfold makeShortName. apply keeps_bind; [typeclasses eauto | apply keeps_makeShortName_loop |].
  intros short out. apply shortmap_frame.
Qed.

Lemma keeps_atof (s : string) : keeps R (atof s).
Proof. intros out. unfold atof. destruct (strconv_ParseFloat s 32); reflexivity. Qed.

Lemma keeps_set_ShortName (short : string) (p : nat) :
  keeps R (fun out => (Ok tt, set_Dict (alter (set_ShortName short) p (Dict out)) out)).
Proof. intros out. apply shortname_frame. Qed.

Hint Resolve keeps_makeShortName keeps_atof keeps_set_ShortName : sav.
Hint Extern 2 (R _ _) => reflexivity : sav.

Lemma keeps_headerRecord (fileLabel : string) : keeps R (headerRecord fileLabel).
Proof. unfold headerRecord. autounfold with sav. compose. Qed.

Lemma keeps_continuationRecord : keeps R continuationRecord.
Proof. unfold continuationRecord. autounfold with sav. compose. Qed.

Hint Resolve keeps_continuationRecord : sav.

Lemma keeps_variableRecords_segment (fuel p : nat) (v : Var) (segment : Z) :
  keeps R (variableRecords_segment fuel p v segment).
Proof. unfold variableRecords_segment. autounfold with sav. compose. Qed.

Hint Resolve keeps_variableRecords_segment : sav.

Lemma keeps_variableRecords (fuel : nat) : keeps R (variableRecords fuel).
Proof. unfold variableRecords. compose. Qed.

Lemma keeps_valueLabelRecords_label (v : Var) (label : Label.t) :
  keeps R (valueLabelRecords_label v label).
Proof. unfold valueLabelRecords_label. autounfold with sav. compose. Qed.

Hint Resolve keeps_valueLabelRecords_label : sav.

Lemma keeps_valueLabelRecords : keeps R valueLabelRecords.
Proof. unfold valueLabelRecords, valueLabelRecords_var. autounfold with sav. compose. Qed.

Lemma keeps_machineIntegerInfoRecord : keeps R machineIntegerInfoRecord.
Proof. unfold machineIntegerInfoRecord. autounfold with sav. compose. Qed.

Lemma keeps_machineFloatingPointInfoRecord : keeps R machineFloatingPointInfoRecord.
Proof. unfold machineFloatingPointInfoRecord. autounfold with sav. compose. Qed.

Lemma keeps_variableDisplayParameterRecord : keeps R variableDisplayParameterRecord.
Proof.
  unfold variableDisplayParameterRecord, variableDisplayParameterRecord_segment.
  autounfold with sav. compose.
Qed.

Lemma keeps_longVarNameRecords : keeps R longVarNameRecords.
Proof. unfold longVarNameRecords. autounfold with sav. compose. Qed.

Lemma keeps_veryLongStringRecord : keeps R veryLongStringRecord.
Proof. unfold veryLongStringRecord. autounfold with sav. compose. Qed.

Lemma keeps_encodingRecord : keeps R encodingRecord.
Proof. unfold encodingRecord. autounfold with sav. compose. Qed.

Lemma keeps_longStringValueLabelsRecord : keeps R longStringValueLabelsRecord.
Proof. unfold longStringValueLabelsRecord. autounfold with sav. compose. Qed.

Lemma keeps_terminationRecord : keeps R terminationRecord.
Proof. unfold terminationRecord. autounfold with sav. compose. Qed.

Lemma keeps_Start (fuel : nat) (fileLabel : string) : keeps R (Start fuel fileLabel).
Proof.
  unfold Start. apply keeps_steps; [typeclasses eauto |].
  repeat constructor;
    auto using keeps_headerRecord, keeps_variableRecords, keeps_valueLabelRecords,
      keeps_machineIntegerInfoRecord, keeps_machineFloatingPointInfoRecord,
      keeps_variableDisplayParameterRecord, keeps_longVarNameRecords,
      keeps_veryLongStringRecord, keeps_encodingRecord, keeps_longStringValueLabelsRecord,
      keeps_terminationRecord.
Qed.

End StartKept.

#[local] Arguments write_at : simpl never.
#[local] Arguments le32 : simpl never.
#[local] Arguments le64 : simpl never.

Section FinishFacts.
Context {ext : Externals}.

Lemma keeps_Finish : keeps same_Count Finish.
Proof.
  unfold Finish, updateHeaderNCases. compose.
  - intros out. destruct (File_Seek (seeker out) 80) as [e f]. reflexivity.
  - intros out. destruct (File_Write (seeker out) (le32 (Count out))) as [[n e] f]. reflexivity.
Qed.

(** When [Finish] returns nil, the four bytes of the file from offset 80 are the
    little-endian bytes of [Count]. *)
Lemma Finish_Ok (out out' : SpssWriter) :
  Finish out = (Ok tt, out') ->
  take 4 (drop 80 (f_data (seeker out'))) = le32 (Count out).
Proof.
  unfold Finish, updateHeaderNCases. simpl. unfold bind at 1.
  pose proof (keeps_ignore_result same_Count _ (keeps_bytecode_Flush same_Count) out) as H1.
  destruct (ignore_result bytecode_Flush out) as [r1 out1]. simpl in H1.
  destruct r1 as [[] | e | |]; try discriminate.
  unfold bind at 1.
  pose proof (keeps_ignore_result same_Count _ (keeps_Flush same_Count) out1) as H2.
  destruct (ignore_result Flush_ out1) as [r2 out2]. simpl in H2.
  destruct r2 as [[] | e | |]; try discriminate.
  unfold bind at 1. unfold File_Seek.
  destruct (io_fault (f_calls (seeker out2))) as [k |]; cbn; [discriminate |].
  unfold bind, File_Write. cbn.
  destruct (io_fault _) as [k |]; cbn; [discriminate |].
  intros [= <-]. cbn.
  change 4%nat with (length (le32 (Count out2))). rewrite write_at_read.
  unfold same_Count in *. rewrite H2, H1. reflexivity.
Qed.

Lemma do_call_Count (fuel : nat) (c : call) (out : SpssWriter) :
  match do_call fuel c out with
  | (Ok _, out') => Count out' = if is_WriteCase c then wrap32 (Count out + 1) else Count out
  | (_, out') => Count out' = Count out
  end.
Proof.
  destruct c; simpl.
  - unfold AddVar. destruct (maxStringLength <? TypeSize v); [reflexivity |].
    destruct (DictMap out !! Name v); reflexivity.
  - pose proof (keeps_Start same_Count fuel fileLabel out) as H.
    destruct (Start fuel fileLabel out) as [[[] | e | |] out']; exact H.
  - reflexivity.
  - unfold SetVar. destruct (DictMap out !! name); [reflexivity |].
    destruct (IgnoreMissingVar out); reflexivity.
  - pose proof (WriteCase_Count out) as H.
    destruct (WriteCase out) as [[[] | e | |] out']; try contradiction; apply H.
  - pose proof (keeps_Finish out) as H.
    destruct (Finish out) as [[[] | e | |] out']; exact H.
Qed.

(** Along the calls of a caller, [Count] is the number of [WriteCase] calls that
    returned nil, as an [int32]. *)
Lemma run_Count (fuel : nat) (cs : list call) :
  forall (out : SpssWriter) (n : Z) (out' : SpssWriter) (n' : Z),
    run fuel cs out n = Some (out', n') ->
    Count out = wrap32 n -> 0 <= n ->
    Count out' = wrap32 n' /\ n <= n' <= n + Z.of_nat (length (filter is_WriteCase cs)).
Proof.
  induction cs as [| c cs IH]; intros out n out' n' Hrun HC Hn; simpl in *.
  - injection Hrun as <- <-. split; [exact HC | lia].
  - pose proof (do_call_Count fuel c out) as Hc.
    destruct (do_call fuel c out) as [[[] | e | |] out1]; try discriminate.
    + destruct (is_WriteCase c) eqn:Hw.
      * apply IH in Hrun; [| rewrite Hc, HC; apply wrap32_succ | lia].
        rewrite filter_cons, Hw. simpl. split; [tauto | lia].
      * apply IH in Hrun; [| congruence | lia].
        rewrite filter_cons, Hw. simpl. split; [tauto | lia].
    + apply IH in Hrun; [| congruence | lia].
      rewrite filter_cons. destruct (is_WriteCase c); simpl; split; try tauto; lia.
Qed.

End FinishFacts.

(** C1.  A caller makes any calls on a new writer, then calls [Finish]; when
    that returns nil, the four bytes of the file at offsets 80..83 are the
    little-endian [int32] of [n], the number of [WriteCase] calls that returned
    nil: they are the low 32 bits of [n], and read back as [n] while [n] fits an
    [int32]. *)
Theorem Finish_patches_ncases {ext : Externals} (fuel : nat) (cs : list call) (w : File)
        (out out' : SpssWriter) (n : Z) :
  run fuel cs (NewSpssWriter w) 0 = Some (out, n) ->
  Finish out = (Ok tt, out') ->
  take 4 (drop 80 (f_data (seeker out'))) = le32 n
  /\ 0 <= n <= Z.of_nat (length (filter is_WriteCase cs))
  /\ (n <= MaxInt32 -> int32_of_le (take 4 (drop 80 (f_data (seeker out')))) = n).
Proof.
  intros Hrun Hfin.
  apply run_Count in Hrun as [HC Hn]; [| reflexivity | lia].
  apply Finish_Ok in Hfin. rewrite Hfin, HC, le32_wrap32.
  split; [reflexivity |]. split; [lia |].
  intros Hmax. apply int32_of_le_le32. unfold MaxInt32 in Hmax. lia.
Qed.

Lemma Finish_patches_ncases_witness :
  let ext := Sample.world in
  let cs := [CallAddVar (Sample.numeric "age"); CallStart "label";
             CallClearCase; CallSetVar "age" "42"; CallWriteCase;
             CallClearCase; CallSetVar "age" ""; CallWriteCase] in
  exists out out',
    run 10 cs (NewSpssWriter Sample.file) 0 = Some (out, 2)
    /\ Finish out = (Ok tt, out')
    /\ take 4 (drop 80 (f_data (seeker out'))) = le32 2.
Proof.
  intros ext cs.
  destruct (run 10 cs (NewSpssWriter Sample.file) 0) as [[out n] |] eqn:Hrun;
    [| vm_compute in Hrun; discriminate].
  assert (Hn : n = 2) by (vm_compute in Hrun; injection Hrun as _ <-; reflexivity).
  subst n.
  destruct (Finish out) as [r out'] eqn:Hfin.
  assert (Hr : r = Ok tt).
  { vm_compute in Hrun. injection Hrun as <-. vm_compute in Hfin. injection Hfin as <- _. reflexivity. }
  subst r. exists out, out'. split; [reflexivity |]. split; [exact Hfin |].
  apply (Finish_patches_ncases 10 cs Sample.file out out' 2 Hrun Hfin).
Defined.

(** ** Dates in [WriteCase] *)

(** C4, as the code behaves.  For a variable of date format (print format
    [SPSS_FMT_DATE], type size 0) that has a value or a default, and whose resolved
    value is the empty string, [WriteCase] hands the eight bytes of
    [-math.MaxFloat64] to the buffered writer itself: no opcode enters the block of
    the case stream, and once the call returns nil the bytes FF FF FF FF FF FF EF FF
    stand in the output behind what was written before. *)
Theorem WriteCase_var_empty_date {ext : Externals} (v : Var) (out : SpssWriter) :
  TypeSize v <= 0 -> Print v = SPSS_FMT_DATE ->
  HasValue v || HasDefault v = true -> resolved v = "" ->
  WriteCase_var v out = Write_ [xff; xff; xff; xff; xff; xff; xef; xff] out
  /\ bytecode (snd (WriteCase_var v out)) = bytecode out
  /\ (appending (seeker out) -> fst (WriteCase_var v out) = Ok tt ->
      written (snd (WriteCase_var v out))
      = written out ++ [xff; xff; xff; xff; xff; xff; xef; xff]).
Proof.
  intros HT HP Hhas Hval.
  assert (E : WriteCase_var v out = Write_ [xff; xff; xff; xff; xff; xff; xef; xff] out).
  { unfold WriteCase_var. rewrite Hhas. fold (resolved v). rewrite Hval.
    destruct (0 <? TypeSize v) eqn:E0; [apply Z.ltb_lt in E0; lia |].
    rewrite HP. reflexivity. }
  rewrite E. split; [reflexivity |]. split.
  - unfold Write_. destruct (bufio_Write _ _) as [e w]. reflexivity.
  - intros Ha Hok.
    pose proof (emits_Write out [xff; xff; xff; xff; xff; xff; xef; xff] out
                  ltac:(reflexivity) Ha) as (_ & _ & H).
    rewrite Hok in H. exact H.
Qed.

Lemma WriteCase_var_empty_date_witness :
  let ext := Sample.world in
  let v := set_Value "" true (Sample.date_var "dob") in
  let out := NewSpssWriter Sample.file in
  bytecode (snd (WriteCase_var v out)) = bytecode out
  /\ written (snd (WriteCase_var v out)) = [xff; xff; xff; xff; xff; xff; xef; xff].
Proof.
  intros ext v out.
  destruct (WriteCase_var_empty_date v out) as (_ & Hb & Hw);
    [vm_compute; discriminate | reflexivity | reflexivity | reflexivity |].
  split; [exact Hb |]. apply Hw; reflexivity.
Defined.

(** The sibling paths do record system-missing in the case stream: an absent
    value, or a datetime whose resolved value is empty, puts opcode 255 in the
    block and writes nothing yet. *)
Example WriteCase_var_missing_opcode :
  let ext := Sample.world in
  let out := NewSpssWriter Sample.file in
  map (fun v => (command (bytecode (snd (WriteCase_var v out))), written (snd (WriteCase_var v out))))
    [Sample.date_var "dob"; set_Value "" true (Sample.datetime_var "t");
     set_Value "" true (Sample.numeric "n")]
  = [([xff], []); ([xff], []); ([xff], [])].
Proof. vm_compute. reflexivity. Qed.

(** C6, as the code behaves.  A date or datetime variable with no value for the
    case and a declared, non-empty default: what is parsed is the field [Value] of
    the variable, which [ClearCase] has emptied, never the default.  So the
    default decides nothing but that the parsing path is taken. *)
Theorem WriteCase_var_date_default {ext : Externals} (v : Var) (d : string) (out : SpssWriter) :
  TypeSize v <= 0 -> Print v = SPSS_FMT_DATE \/ Print v = SPSS_FMT_DATE_TIME ->
  HasValue v = false -> d <> "" ->
  WriteCase_var (set_Default d v) out
  = match time_Parse (if Print v =? SPSS_FMT_DATE then "2-Jan-2006" else "2-Jan-2006 15:04:05")
            (Value v) with
    | None => WriteMissing out
    | Some unix => WriteNumber (float64_of_int (wrap64 (unix + TimeOffset))) out
    end.
Proof.
  intros HT HP HV Hd.
  unfold WriteCase_var. simpl. rewrite HV. simpl.
  destruct (0 <? TypeSize v) eqn:E0; [apply Z.ltb_lt in E0; lia |].
  assert (Ed : (d =? "")%string = false) by (apply String.eqb_neq; exact Hd).
  rewrite Ed.
  destruct HP as [-> | ->]; simpl; destruct (time_Parse _ (Value v)); reflexivity.
Qed.

Lemma WriteCase_var_date_default_witness :
  let ext := Sample.world in
  let v := set_Default "1-Jan-1970" (Sample.date_var "dob") in
  let out := NewSpssWriter Sample.file in
  WriteCase_var v out = WriteMissing out
  /\ WriteCase_var (set_Value "1-Jan-1970" true (Sample.date_var "dob")) out
     = WriteNumber (float64_of_int 12219379200) out.
Proof.
  intros ext v out. split; [| reflexivity].
  refine (eq_trans (WriteCase_var_date_default (Sample.date_var "dob") "1-Jan-1970" out _ _ _ _) _).
  - vm_compute. discriminate.
  - left. reflexivity.
  - reflexivity.
  - discriminate.
  - reflexivity.
Defined.

(** ** Adding variables *)

(** C7, as the code behaves.  [AddVar] ends the process exactly when the type
    size exceeds 51200 or the name, as passed (before cleanup), is already a key of
    the long-name map.  In every other case it returns, the variable (with its
    cleaned name, segments, index and column index) is the new last entry of the
    dictionary, and the name as passed maps to it. *)
Theorem AddVar_outcome (v : Var) (out : SpssWriter) :
  (AddVar v out = (Fatal, out)
   <-> maxStringLength < TypeSize v \/ is_Some (DictMap out !! Name v))
  /\ (TypeSize v <= maxStringLength -> DictMap out !! Name v = None ->
      exists out',
        AddVar v out = (Ok tt, out')
        /\ Dict out' = Dict out ++ [added v out]
        /\ Name (added v out) = cleanVarName (Name v)
        /\ DictMap out' = <[Name v := length (Dict out)]> (DictMap out)
        /\ DictMap out' !! Name v = Some (length (Dict out))
        /\ Dict out' !! length (Dict out) = Some (added v out)).
Proof.
  destruct (AddVar_spec v out) as [Hfatal Hok]. split.
  - split; [| exact Hfatal].
    intros H. destruct (Z_le_gt_dec (TypeSize v) maxStringLength) as [Hle | Hgt]; [| left; lia].
    destruct (DictMap out !! Name v) as [p |] eqn:Hp; [right; eauto |].
    destruct (Hok Hle eq_refl) as (out' & E & _). rewrite E in H. discriminate.
  - intros Hle Hnone. destruct (Hok Hle Hnone) as (out' & E & HD & HM & _).
    exists out'. split; [exact E |]. split; [exact HD |]. split; [reflexivity |].
    split; [exact HM |]. split.
    + rewrite HM. apply lookup_insert_eq.
    + rewrite HD. rewrite lookup_app_r by lia. rewrite Nat.sub_diag. reflexivity.
Qed.

(** The check is on the name as passed: two variables whose names differ as
    passed are both accepted, also when cleanup makes their long names equal. *)
Theorem AddVar_names_equal_after_cleanup (v1 v2 : Var) (out : SpssWriter) :
  Name v1 <> Name v2 -> cleanVarName (Name v1) = cleanVarName (Name v2) ->
  TypeSize v1 <= maxStringLength -> TypeSize v2 <= maxStringLength ->
  DictMap out !! Name v1 = None -> DictMap out !! Name v2 = None ->
  exists out1 out2 w1 w2,
    AddVar v1 out = (Ok tt, out1) /\ AddVar v2 out1 = (Ok tt, out2)
    /\ Dict out2 = Dict out ++ [w1; w2] /\ Name w1 = Name w2.
Proof.
  intros Hne Hclean H1 H2 Hn1 Hn2.
  destruct (AddVar_spec v1 out) as [_ Hok1].
  destruct (Hok1 H1 Hn1) as (out1 & E1 & HD1 & HM1 & _).
  destruct (AddVar_spec v2 out1) as [_ Hok2].
  destruct (Hok2 H2) as (out2 & E2 & HD2 & _).
  { rewrite HM1, lookup_insert_ne by exact Hne. exact Hn2. }
  exists out1, out2, (added v1 out), (added v2 out1).
  split; [exact E1 |]. split; [exact E2 |]. split.
  - rewrite HD2, HD1, <- app_assoc. reflexivity.
  - exact Hclean.
Qed.

Lemma AddVar_names_equal_after_cleanup_witness :
  exists out2 w1 w2,
    snd (AddVar (Sample.numeric "ab") (snd (AddVar (Sample.numeric "a b") (NewSpssWriter Sample.file))))
    = out2
    /\ Dict out2 = [] ++ [w1; w2] /\ Name w1 = Name w2.
Proof.
  destruct (AddVar_names_equal_after_cleanup (Sample.numeric "a b") (Sample.numeric "ab")
              (NewSpssWriter Sample.file))
    as (out1 & out2 & w1 & w2 & E1 & E2 & HD & HN);
    [discriminate | reflexivity | vm_compute; discriminate | vm_compute; discriminate
     | reflexivity | reflexivity |].
  exists out2, w1, w2. rewrite E1. simpl. rewrite E2. auto.
Defined.

(** ** Strings *)

Lemma len_string_take (n : nat) (s : string) : len (string_take n s) = Nat.min n (len s).
Proof.
  revert s. induction n as [| n IH]; intros [| c s]; simpl; try reflexivity.
  unfold len in *. rewrite IH. reflexivity.
Qed.

Lemma append_cons (c : ascii) (s t : string) : String c s +:+ t = String c (s +:+ t).
Proof. reflexivity. Qed.

Lemma append_nil (t : string) : "" +:+ t = t.
Proof. reflexivity. Qed.

Lemma len_append (s t : string) : len (s +:+ t) = (len s + len t)%nat.
Proof.
  induction s as [| c s IH]; [reflexivity |].
  rewrite append_cons. unfold len in *. simpl. rewrite IH. reflexivity.
Qed.

Lemma bytes_of_string_cons (c : ascii) (s : string) :
  bytes_of_string (String c s) = byte_of_ascii c :: bytes_of_string s.
Proof. reflexivity. Qed.

Lemma len_Repeat (c : ascii) (n : nat) : len (Repeat c n) = n.
Proof. induction n as [| n IH]; simpl; [reflexivity | unfold len in *; rewrite IH; reflexivity]. Qed.

Lemma length_bytes_of_string (s : string) : length (bytes_of_string s) = len s.
Proof.
  induction s as [| c s IH]; [reflexivity |].
  rewrite bytes_of_string_cons. unfold len in *. simpl. rewrite IH. reflexivity.
Qed.

Lemma string_take_drop (n : nat) (s : string) : string_take n s +:+ string_drop n s = s.
Proof.
  revert s. induction n as [| n IH]; intros [| c s]; simpl; try reflexivity.
  rewrite append_cons, IH. reflexivity.
Qed.

Lemma string_take_all (n : nat) (s : string) : (len s <= n)%nat -> string_take n s = s.
Proof.
  revert s. induction n as [| n IH]; intros [| c s] H; simpl in *; try reflexivity; try lia.
  rewrite IH by (unfold len in *; lia). reflexivity.
Qed.

Lemma string_forall_take (f : ascii -> bool) (n : nat) (s : string) :
  string_forall f s = true -> string_forall f (string_take n s) = true.
Proof.
  revert s. induction n as [| n IH]; intros [| c s] H; simpl in *; try reflexivity.
  apply andb_prop in H as [H1 H2]. rewrite H1, IH by exact H2. reflexivity.
Qed.

Lemma string_forall_filter (f : ascii -> bool) (s : string) :
  string_forall f (string_filter f s) = true.
Proof.
  induction s as [| c s IH]; simpl; [reflexivity |].
  destruct (f c) eqn:E; simpl; [rewrite E |]; exact IH.
Qed.

Lemma string_filter_id (f : ascii -> bool) (s : string) :
  string_forall f s = true -> string_filter f s = s.
Proof.
  induction s as [| c s IH]; simpl; [reflexivity |]. intros H.
  apply andb_prop in H as [H1 H2]. rewrite H1, IH by exact H2. reflexivity.
Qed.

(** [stob] and [stobp] give exactly [l] bytes, and they begin with the bytes of
    [s] (all of them when [s] is not longer than [l]). *)
Lemma stobp_spec (s : string) (l : nat) (pad : ascii) :
  length (stobp s l pad) = l
  /\ ((len s <= l)%nat ->
      stobp s l pad = bytes_of_string s ++ replicate (l - len s) (byte_of_ascii pad))
  /\ ((l <= len s)%nat -> stobp s l pad = take l (bytes_of_string s)).
Proof.
  assert (Happ : forall a b, bytes_of_string (a +:+ b) = bytes_of_string a ++ bytes_of_string b).
  { intros a b. induction a as [| c a IH]; [reflexivity |].
    rewrite append_cons, !bytes_of_string_cons, IH. reflexivity. }
  assert (Hrep : forall n, bytes_of_string (Repeat pad n) = replicate n (byte_of_ascii pad)).
  { induction n as [| n IH]; [reflexivity |].
    simpl Repeat. rewrite bytes_of_string_cons, IH. reflexivity. }
  assert (Htake : forall n a, bytes_of_string (string_take n a) = take n (bytes_of_string a)).
  { induction n as [| n IH]; intros [| c a]; try reflexivity.
    simpl string_take. rewrite !bytes_of_string_cons, IH. reflexivity. }
  unfold stobp.
  destruct (l <? len s)%nat eqn:E1; [apply Nat.ltb_lt in E1 | apply Nat.ltb_ge in E1].
  - split; [rewrite length_bytes_of_string, len_string_take; lia |].
    split; [lia | intros _; apply Htake].
  - destruct (len s <? l)%nat eqn:E2; [apply Nat.ltb_lt in E2 | apply Nat.ltb_ge in E2].
    + split; [rewrite length_bytes_of_string, len_append, len_Repeat; lia |].
      split; [intros _; rewrite Happ, Hrep; reflexivity | lia].
    + assert (l = len s) by lia. subst l.
      split; [apply length_bytes_of_string |].
      split; intros _.
      * rewrite Nat.sub_diag, app_nil_r. reflexivity.
      * rewrite <- length_bytes_of_string, firstn_all. reflexivity.
Qed.

Lemma stob_stobp (s : string) (l : nat) : stob s l = stobp s l space.
Proof. reflexivity. Qed.

Lemma length_stob (s : string) (l : nat) : length (stob s l) = l.
Proof. rewrite stob_stobp. apply stobp_spec. Qed.

(** ** Cleaning names *)

Lemma name_char_at : name_char "@" = false.
Proof. reflexivity. Qed.

(** What [cleanVarName] gives: a string that is not empty, of at most 64 bytes,
    that begins with a letter or with [@]; behind a leading [@] every byte is one
    of [A-Za-z0-9#$_.], and the byte behind [@] is no letter. *)
Lemma cleanVarName_shape (n : string) :
  exists c r,
    cleanVarName n = String c r /\ (len (cleanVarName n) <= 64)%nat
    /\ ((is_letter c = true /\ string_forall name_char (String c r) = true)
        \/ (c = "@"%char /\ string_forall name_char r = true
            /\ exists c' r', r = String c' r' /\ is_letter c' = false)).
Proof.
  unfold cleanVarName.
  set (s0 := string_filter name_char n).
  assert (H0 : string_forall name_char s0 = true) by apply string_forall_filter.
  set (s1 := if (len s0 =? 0)%nat then "illegal" else s0).
  assert (H1 : string_forall name_char s1 = true).
  { unfold s1. destruct (len s0 =? 0)%nat; [reflexivity | exact H0]. }
  assert (Hne : exists c r, s1 = String c r).
  { unfold s1. destruct s0 as [| c r]; simpl; eauto. }
  destruct Hne as (c & r & Hs1). rewrite Hs1 in *. clear s0 H0 s1 Hs1.
  fold (is_letter c).
  replace (negb (is_lower c) && negb (is_upper c)) with (negb (is_letter c))
    by (unfold is_letter; destruct (is_lower c), (is_upper c); reflexivity).
  destruct (is_letter c) eqn:Hl; simpl negb; cbv iota.
  - destruct (64 <? len (String c r))%nat eqn:E.
    + exists c, (string_take 63 r). split; [reflexivity |].
      split; [rewrite len_string_take; lia |].
      left. split; [exact Hl |]. apply (string_forall_take name_char 64 (String c r) H1).
    + apply Nat.ltb_ge in E. exists c, r. split; [reflexivity |]. split; [exact E |].
      left. split; [exact Hl | exact H1].
  - destruct (64 <? len ("@" +:+ String c r))%nat eqn:E.
    + exists "@"%char, (string_take 63 (String c r)). split; [reflexivity |].
      split; [rewrite len_string_take; lia |].
      right. split; [reflexivity |].
      split; [apply string_forall_take; exact H1 |].
      exists c, (string_take 62 r). split; [reflexivity | exact Hl].
    + apply Nat.ltb_ge in E. exists "@"%char, (String c r). split; [reflexivity |].
      split; [exact E |]. right. split; [reflexivity |]. split; [exact H1 |].
      exists c, r. split; [reflexivity | exact Hl].
Qed.

(** Cleaning a cleaned name changes nothing. *)
Lemma cleanVarName_idempotent (n : string) : cleanVarName (cleanVarName n) = cleanVarName n.
Proof.
  destruct (cleanVarName_shape n) as (c & r & E & Hlen & Hshape). rewrite E in *.
  destruct Hshape as [[Hl Hall] | (-> & Hall & c' & r' & -> & Hl')]; unfold cleanVarName.
  - rewrite (string_filter_id name_char _ Hall). simpl (len (String c r) =? 0)%nat. cbv iota.
    fold (is_letter c).
    replace (negb (is_lower c) && negb (is_upper c)) with (negb (is_letter c))
      by (unfold is_letter; destruct (is_lower c), (is_upper c); reflexivity).
    rewrite Hl. simpl negb. cbv iota.
    destruct (64 <? len (String c r))%nat eqn:E2; [apply Nat.ltb_lt in E2; lia | reflexivity].
  - change (string_filter name_char (String "@" (String c' r')))
      with (string_filter name_char (String c' r')).
    rewrite (string_filter_id name_char _ Hall). simpl (len (String c' r') =? 0)%nat. cbv iota.
    fold (is_letter c').
    replace (negb (is_lower c') && negb (is_upper c')) with (negb (is_letter c'))
      by (unfold is_letter; destruct (is_lower c'), (is_upper c'); reflexivity).
    rewrite Hl'. simpl negb. cbv iota.
    destruct (64 <? len ("@" +:+ String c' r'))%nat eqn:E2; [| reflexivity].
    apply Nat.ltb_lt in E2. simpl in E2, Hlen. lia.
Qed.

(** The shape of a cleaned name, and that cleaning is idempotent. *)
Theorem cleanVarName_clean (n : string) :
  cleanVarName (cleanVarName n) = cleanVarName n
  /\ (1 <= len (cleanVarName n) <= 64)%nat
  /\ string_forall (fun c => name_char c || Ascii.eqb c "@") (cleanVarName n) = true
  /\ (exists c r, cleanVarName n = String c r /\ (is_letter c = true \/ c = "@"%char))
  /\ (string_forall name_char n = true -> (1 <= len n <= 64)%nat ->
      (exists c r, n = String c r /\ is_letter c = true) -> cleanVarName n = n).
Proof.
  split; [apply cleanVarName_idempotent |].
  destruct (cleanVarName_shape n) as (c & r & E & Hlen & Hshape).
  assert (Hweak : forall s, string_forall name_char s = true ->
                            string_forall (fun c => name_char c || Ascii.eqb c "@") s = true).
  { induction s as [| x s IH]; simpl; [reflexivity |]. intros H.
    apply andb_prop in H as [H1 H2]. rewrite H1, IH by exact H2. reflexivity. }
  split; [rewrite E in *; simpl in *; lia |].
  split.
  { rewrite E. destruct Hshape as [[_ Hall] | (-> & Hall & _)].
    - apply Hweak, Hall.
    - simpl. apply Hweak, Hall. }
  split.
  { exists c, r. split; [exact E |]. destruct Hshape as [[Hl _] | (-> & _)]; auto. }
  intros Hall Hl (c0 & r0 & -> & Hc0). unfold cleanVarName.
  rewrite (string_filter_id name_char _ Hall). simpl (len (String c0 r0) =? 0)%nat. cbv iota.
  fold (is_letter c0).
  replace (negb (is_lower c0) && negb (is_upper c0)) with (negb (is_letter c0))
    by (unfold is_letter; destruct (is_lower c0), (is_upper c0); reflexivity).
  rewrite Hc0. simpl negb. cbv iota.
  destruct (64 <? len (String c0 r0))%nat eqn:E2; [apply Nat.ltb_lt in E2; lia | reflexivity].
Qed.

(** ** What the records hold *)

Ltac emits_Forall2 tac :=
  lazymatch goal with
  | |- Forall2 _ [] _ => constructor
  | |- Forall2 _ (_ :: _) _ => constructor; [tac | emits_Forall2 tac]
  end.

(** Finds the bytes a sequence of writes emits. *)
Ltac emits_step :=
  lazymatch goal with
  | |- emits _ (Write_ _) _ => apply emits_Write
  | |- emits _ (binary_Write_int32 _) _ => apply emits_Write
  | |- emits _ (binary_Write_float64 _) _ => apply emits_Write
  | |- emits _ (binary_Write_byte _) _ => apply emits_Write
  | |- emits _ (binary_Write_bytes _) _ => apply emits_Write
  | |- emits _ (ret tt) _ => apply emits_ret
  | |- emits _ (steps _) _ => apply emits_steps; emits_Forall2 emits_step
  | |- emits _ (when _ _) _ => apply emits_when; emits_step
  | |- emits _ (if ?b then _ else _) _ =>
      lazymatch goal with
      | |- emits ?o (if b then ?m1 else ?m2) _ =>
          refine (emits_eq o _ (if b then _ else _) _ _ _);
          [destruct b; emits_step | destruct b; reflexivity]
      end
  end.

Lemma slice_app {X : Type} (pre x post : list X) (n k : nat) :
  length pre = n -> length x = k -> take k (drop n (pre ++ x ++ post)) = x.
Proof.
  intros <- <-. rewrite drop_app_length. apply take_app_length.
Qed.

Lemma only_Writer_caseSize (out out' : SpssWriter) :
  only_Writer out out' -> caseSize out' = caseSize out.
Proof. intros ->. reflexivity. Qed.

Section HeaderFacts.
Context {ext : Externals}.

(** The 176 bytes of the header, given the case size, the date, the time and the
    file label. *)
Lemma emits_headerRecord (out0 : SpssWriter) (fileLabel : string) :
  emits out0 (headerRecord fileLabel)
    (stob "$FL2" 4 ++ stob "@(#) SPSS DATA FILE - xml2sav 2.0" 60 ++ le32 2
     ++ le32 (caseSize out0) ++ le32 1 ++ le32 0 ++ le32 (-1) ++ le64 float64_100
     ++ stob (time_Now_Format "02 Jan 06") 9 ++ stob (time_Now_Format "15:04:05") 8
     ++ stob fileLabel 64 ++ stob (Repeat zero 3) 3).
Proof.
  unfold headerRecord.
  apply (emits_reader out0 (fun _ => steps _)). intros _ _.
  eapply emits_eq.
  - apply emits_steps. emits_Forall2 ltac:(idtac).
    all: try emits_step.
    apply (emits_reader out0 (fun o => binary_Write_int32 (caseSize o))).
    intros o Ho. rewrite (only_Writer_caseSize _ _ Ho). apply emits_Write.
  - cbn [concat]. rewrite ?app_nil_r. reflexivity.
Qed.

End HeaderFacts.

Lemma slice_concat {X : Type} (pre : list (list X)) (x : list X) (post : list (list X))
      (n k : nat) :
  length (concat pre) = n -> length x = k ->
  take k (drop n (concat (pre ++ x :: post))) = x.
Proof.
  intros <- <-. rewrite concat_app. cbn [concat].
  rewrite drop_app_length. apply take_app_length.
Qed.

(** The header record.  When [headerRecord] returns nil on a file that is
    appended to, it has written 176 bytes and touched nothing but the buffered
    writer: ["$FL2"] at offset 0, the layout code 2 at 64, the number of elements
    of a case at 68, compression 1 at 72, weight index 0 at 76, the placeholder -1
    for the number of cases at 80, the bias 100.0 at 84, the file label, cut or
    space-padded to 64 bytes, at 109, and three zero bytes at 173. *)
Theorem headerRecord_layout {ext : Externals} (fileLabel : string) (out out' : SpssWriter) :
  appending (seeker out) ->
  headerRecord fileLabel out = (Ok tt, out') ->
  exists h,
    written out' = written out ++ h /\ only_Writer out out' /\ length h = 176%nat
    /\ take 4 h = [x24; x46; x4c; x32]
    /\ take 4 (drop 64 h) = le32 2
    /\ take 4 (drop 68 h) = le32 (caseSize out)
    /\ take 4 (drop 72 h) = le32 1
    /\ take 4 (drop 76 h) = le32 0
    /\ take 4 (drop 80 h) = le32 (-1)
    /\ take 8 (drop 84 h) = le64 float64_100
    /\ take 64 (drop 109 h) = stob fileLabel 64
    /\ drop 173 h = [x00; x00; x00].
Proof.
  intros Ha Hrun.
  destruct (emits_call out _ _ out' (Ok tt) (emits_headerRecord out fileLabel) Ha Hrun)
    as (_ & Hw & Hs & _).
  specialize (Hs eq_refl).
  set (p1 := stob "$FL2" 4) in *. set (p2 := stob "@(#) SPSS DATA FILE - xml2sav 2.0" 60) in *.
  set (p9 := stob (time_Now_Format "02 Jan 06") 9) in *.
  set (p10 := stob (time_Now_Format "15:04:05") 8) in *.
  set (p11 := stob fileLabel 64) in *. set (p12 := stob (Repeat zero 3) 3) in *.
  set (cs := le32 (caseSize out)) in *.
  assert (L1 : length p1 = 4%nat) by apply length_stob.
  assert (L2 : length p2 = 60%nat) by apply length_stob.
  assert (L9 : length p9 = 9%nat) by apply length_stob.
  assert (L10 : length p10 = 8%nat) by apply length_stob.
  assert (L11 : length p11 = 64%nat) by apply length_stob.
  assert (L12 : length p12 = 3%nat) by apply length_stob.
  assert (Lcs : length cs = 4%nat) by apply length_le32.
  pose proof (length_le32 2) as La. pose proof (length_le32 1) as Lb.
  pose proof (length_le32 0) as Lc. pose proof (length_le32 (-1)) as Ld.
  pose proof (length_le64 float64_100) as Le.
  exists (concat [p1; p2; le32 2; cs; le32 1; le32 0; le32 (-1); le64 float64_100;
                  p9; p10; p11; p12]).
  assert (Hlen : forall pre : list (list byte), length (concat pre) = sum_list (map length pre)).
  { induction pre as [| x pre IH]; [reflexivity |]. cbn [concat map sum_list].
    rewrite length_app, IH. reflexivity. }
  split; [rewrite Hs; cbn [concat]; rewrite app_nil_r; reflexivity |].
  split; [exact Hw |].
  split; [rewrite Hlen; cbn [map sum_list]; unfold id; lia |].
  split; [reflexivity |].
  split; [apply (slice_concat [p1; p2] (le32 2));
          [rewrite Hlen; cbn [map sum_list]; unfold id; lia | exact La] |].
  split; [apply (slice_concat [p1; p2; le32 2] cs);
          [rewrite Hlen; cbn [map sum_list]; unfold id; lia | exact Lcs] |].
  split; [apply (slice_concat [p1; p2; le32 2; cs] (le32 1));
          [rewrite Hlen; cbn [map sum_list]; unfold id; lia | exact Lb] |].
  split; [apply (slice_concat [p1; p2; le32 2; cs; le32 1] (le32 0));
          [rewrite Hlen; cbn [map sum_list]; unfold id; lia | exact Lc] |].
  split; [apply (slice_concat [p1; p2; le32 2; cs; le32 1; le32 0] (le32 (-1)));
          [rewrite Hlen; cbn [map sum_list]; unfold id; lia | exact Ld] |].
  split; [apply (slice_concat [p1; p2; le32 2; cs; le32 1; le32 0; le32 (-1)] (le64 float64_100));
          [rewrite Hlen; cbn [map sum_list]; unfold id; lia | exact Le] |].
  split; [apply (slice_concat [p1; p2; le32 2; cs; le32 1; le32 0; le32 (-1); le64 float64_100;
                               p9; p10] p11);
          [rewrite Hlen; cbn [map sum_list]; unfold id; lia | exact L11] |].
  change (concat [p1; p2; le32 2; cs; le32 1; le32 0; le32 (-1); le64 float64_100; p9; p10; p11; p12])
    with (concat ([p1; p2; le32 2; cs; le32 1; le32 0; le32 (-1); le64 float64_100; p9; p10; p11]
                  ++ [p12])).
  rewrite concat_app, drop_app_length'; [reflexivity |].
  rewrite Hlen. cbn [map sum_list]. unfold id. lia.
Qed.

Lemma headerRecord_layout_witness :
  let ext := Sample.world in
  exists out' h,
    headerRecord "label" (NewSpssWriter Sample.file) = (Ok tt, out')
    /\ written out' = [] ++ h /\ length h = 176%nat /\ take 4 (drop 80 h) = le32 (-1).
Proof.
  intros ext.
  destruct (headerRecord "label" (NewSpssWriter Sample.file)) as [r out'] eqn:E.
  assert (Hr : r = Ok tt) by (vm_compute in E; injection E as <- _; reflexivity).
  subst r.
  destruct (headerRecord_layout "label" (NewSpssWriter Sample.file) out' eq_refl E)
    as (h & Hw & _ & Hl & _ & _ & _ & _ & _ & Hn & _).
  exists out', h. auto.
Defined.

(** ** Writers a caller can get *)

(** A variable without what a case or [Start] changes of it. *)
Definition strip (v : Var) : Var := set_Value "" false (set_ShortName "" v).

Definition layout (out : SpssWriter) : list Var := map strip (Dict out).

(** The elements a variable takes in a case: [elementCount] of each segment. *)
Definition elements (v : Var) : Z :=
  sum_Z (map (fun s => elementCount (SegmentWidth v s)) (range (Segments v))).


(** [m] leaves the dictionary as it is, but for values and short names. *)
Definition same_layout (out out' : SpssWriter) : Prop :=
  layout out' = layout out /\ DictMap out' = DictMap out
  /\ Index_ out' = Index_ out /\ ColumnIndex_ out' = ColumnIndex_ out
  /\ IgnoreMissingVar out' = IgnoreMissingVar out.


Lemma layout_alter (f : Var -> Var) (p : nat) (d : list Var) :
  (forall v, strip (f v) = strip v) -> map strip (alter f p d) = map strip d.
Proof.
  intros Hf. revert p. induction d as [| v d IH]; intros [| p]; simpl; try reflexivity.
  - rewrite Hf. reflexivity.
  - f_equal. apply IH.
Qed.

#[local] Instance same_layout_preorder : PreOrder same_layout.
Proof.
  split.
  - intros out. unfold same_layout. tauto.
  - intros a b c (? & ? & ? & ? & ?) (? & ? & ? & ? & ?). unfold same_layout.
    repeat split; congruence.
Qed.

#[local] Instance same_layout_WriterFrame : WriterFrame same_layout.
Proof. intros out w. unfold same_layout. simpl. tauto. Qed.

#[local] Instance same_layout_BytecodeFrame : BytecodeFrame same_layout.
Proof. intros out w. unfold same_layout. simpl. tauto. Qed.

#[local] Hint Extern 2 (same_layout _ _) => unfold same_layout, layout; simpl; tauto : sav.

#[local] Instance same_layout_ShortNameFrame : ShortNameFrame same_layout.
Proof.
  split; intros; unfold same_layout, layout; simpl; try tauto.
  rewrite layout_alter by reflexivity. tauto.
Qed.




Lemma wrap32_idem (z : Z) : wrap32 (wrap32 z) = wrap32 z.
Proof. apply wrap32_small, wrap32_range. Qed.








Section LayoutKept.
Context {ext : Externals}.








End LayoutKept.




